(** * read_waveplus.py: serial-number parsing, telemetry decoding and the
      device session, embedded from the Python source.

    Python values that the program stores in one variable but that have
    several dynamic types (an int, a float, the string "N/A", None) are
    modelled by [pyval].  Python exceptions are modelled by [Exn]; a
    computation either returns or raises ([Res]).  Stateful methods run in
    the monad [M St], which threads the object ([self]) and the outside
    world (what was printed, how many transport calls were made) and keeps
    both when an exception is raised, as Python does.

    Python floats are IEEE 754 binary64, which is what Rocq's primitive
    floats are. *)

From Stdlib Require Import ZArith String Ascii DecimalString.
From Stdlib.Strings Require Import Byte.
From Stdlib Require Import PrimFloat Uint63.
From stdpp Require Import base list gmap.

Open Scope string_scope.
Open Scope list_scope.
Open Scope Z_scope.

(** ** Python values and exceptions *)

Inductive pyval : Type :=
  | VNone
  | VInt (z : Z)
  | VFloat (f : float)
  | VStr (s : string).

(** [SystemExit] and [KeyboardInterrupt] derive from BaseException only:
    an [except Exception] clause does not catch them. *)
Inductive Exn : Type :=
  | SystemExit (code : Z)
  | KeyboardInterrupt
  | Exception (msg : string)
  | IndexError
  | KeyError
  | ValueError
  | StructError
  | AttributeError
  | BTLEException (msg : string).

Definition is_Exception (e : Exn) : bool :=
  match e with
  | SystemExit _ | KeyboardInterrupt => false
  | _ => true
  end.

Inductive Res (A : Type) : Type :=
  | Ret (a : A)
  | Raise (e : Exn).
Arguments Ret {A} a.
Arguments Raise {A} e.

Definition rbind {A B} (r : Res A) (k : A -> Res B) : Res B :=
  match r with
  | Ret a => k a
  | Raise e => Raise e
  end.

Notation "'let?' x ':=' r 'in' k" := (rbind r (fun x => k))
  (at level 10, x name, r at level 100, k at level 200).

(** ** Bytes *)

(** The integer a [bytes] or [bytearray] element reads as. *)
Definition byte_int (b : byte) : Z := Z.of_N (Byte.to_N b).

(** [seq[i]] for a non-negative constant [i]: IndexError out of range. *)
Definition getitem {A} (l : list A) (i : nat) : Res A :=
  match l !! i with
  | Some x => Ret x
  | None => Raise IndexError
  end.

(** *** [bytearray.fromhex] (Python 3.7 and later)

    Two hexadecimal digits per byte; ASCII whitespace is skipped between
    bytes, not inside one; anything else raises ValueError. *)

Definition hexval (c : ascii) : option Z :=
  let n := Z.of_N (N_of_ascii c) in
  if (48 <=? n) && (n <=? 57) then Some (n - 48)
  else if (97 <=? n) && (n <=? 102) then Some (n - 87)
  else if (65 <=? n) && (n <=? 70) then Some (n - 55)
  else None.

Definition is_space (c : ascii) : bool :=
  let n := Z.of_N (N_of_ascii c) in
  (n =? 32) || ((9 <=? n) && (n <=? 13)).

Definition byte_of_nibbles (top bot : Z) : byte :=
  byte_of_ascii (ascii_of_N (Z.to_N (Z.lor (Z.shiftl top 4) bot))).

Fixpoint fromhex (s : string) : Res (list byte) :=
  match s with
  | EmptyString => Ret []
  | String c rest =>
      if is_space c then fromhex rest
      else
        match rest with
        | EmptyString => Raise ValueError
        | String d rest' =>
            match hexval c, hexval d with
            | Some top, Some bot =>
                let? bs := fromhex rest' in Ret (byte_of_nibbles top bot :: bs)
            | _, _ => Raise ValueError
            end
        end
  end.

(** The text bluepy's [getValueText] hands over: two lower-case hexadecimal
    digits per byte ([binascii.b2a_hex]). *)
Definition hexdigit (n : Z) : ascii :=
  if n <? 10 then ascii_of_N (Z.to_N (48 + n)) else ascii_of_N (Z.to_N (87 + n)).

Fixpoint hexlify (bs : list byte) : string :=
  match bs with
  | [] => EmptyString
  | b :: bs' =>
      String (hexdigit (Z.shiftr (byte_int b) 4))
        (String (hexdigit (Z.land (byte_int b) 15)) (hexlify bs'))
  end.

(** ** Utility function for the WavePlus class *)

Definition Unknown : pyval := VStr "Unknown".

(** [ManuDataHexStr] is None or a str. *)
Definition parseSerialNumber (ManuDataHexStr : option string) : Res pyval :=
  match ManuDataHexStr with
  | None => Ret Unknown
  | Some text =>
      if String.eqb text "None" then Ret Unknown
      else
        let? ManuData := fromhex text in
        let? m1 := getitem ManuData 1 in
        let? m0 := getitem ManuData 0 in
        if Z.lor (Z.shiftl (byte_int m1) 8) (byte_int m0) =? 0x0334 then
          let? b2 := getitem ManuData 2 in
          let SN := byte_int b2 in
          let? b3 := getitem ManuData 3 in
          let SN := Z.lor SN (Z.shiftl (byte_int b3) 8) in
          let? b4 := getitem ManuData 4 in
          let SN := Z.lor SN (Z.shiftl (byte_int b4) 16) in
          let? b5 := getitem ManuData 5 in
          let SN := Z.lor SN (Z.shiftl (byte_int b5) 24) in
          Ret (VInt SN)
        else Ret Unknown
  end.

(** What the specification calls the little-endian unsigned integer held
    by a run of bytes. *)
Fixpoint le_uint (bs : list byte) : Z :=
  match bs with
  | [] => 0
  | b :: bs' => byte_int b + 256 * le_uint bs'
  end.

(** ** The outside world

    What the program prints, and how many calls it has made to the BLE
    transport (bluepy).  The text of a table row is
    [str(value) + " " + str(unit)] per cell, laid out by tableprint when
    [pretty]; the model keeps the values and units of a row and the labels
    of the header.  [StrOf e] stands for [print(str(e))]. *)

Inductive Output : Type :=
  | Line (text : string)
  | StrOf (e : Exn)
  | Header (pretty : bool) (labels : list string)
  | Row (pretty : bool) (cells : list (pyval * string)).

Record World : Type := mkWorld {
  stdout : list Output;
  clock : nat
}.

Definition emit (o : Output) (w : World) : World :=
  mkWorld (stdout w ++ [o]) (clock w).

Definition tick (w : World) : World :=
  mkWorld (stdout w) (S (clock w)).

(** ** Methods: state, world and exceptions *)

Definition M (St A : Type) : Type := St -> World -> St * World * Res A.

Definition ret {St A} (a : A) : M St A := fun s w => (s, w, Ret a).

Definition bind {St A B} (m : M St A) (k : A -> M St B) : M St B :=
  fun s w =>
    match m s w with
    | (s', w', Ret a) => k a s' w'
    | (s', w', Raise e) => (s', w', Raise e)
    end.

Notation "'let*' x ':=' m 'in' k" := (bind m (fun x => k))
  (at level 10, x name, m at level 100, k at level 200).
Notation "m ';;' k" := (bind m (fun _ => k))
  (at level 100, k at level 200, right associativity).

Definition raise {St A} (e : Exn) : M St A := fun s w => (s, w, Raise e).
Definition lift {St A} (r : Res A) : M St A := fun s w => (s, w, r).
Definition get {St} : M St St := fun s w => (s, w, Ret s).
Definition modify {St} (f : St -> St) : M St unit := fun s w => (f s, w, Ret tt).
Definition output {St} (o : Output) : M St unit := fun s w => (s, emit o w, Ret tt).
Definition print {St} (text : string) : M St unit := output (Line text).
Definition sys_exit {St A} (code : Z) : M St A := raise (SystemExit code).

(** [try: body  except Exception as e: handler e] *)
Definition try_except {St A} (body : M St A) (handler : Exn -> M St A) : M St A :=
  fun s w =>
    match body s w with
    | (s', w', Raise e) =>
        if is_Exception e then handler e s' w' else (s', w', Raise e)
    | r => r
    end.

(** A method call on a local object [o] from inside a method of another
    object: the local object is returned with the result, and is dropped
    when the call raises. *)
Definition on_local {St Obj A} (o : Obj) (m : M Obj A) : M St (Obj * A) :=
  fun s w =>
    match m o w with
    | (o', w', Ret a) => (s, w', Ret (o', a))
    | (_, w', Raise e) => (s, w', Raise e)
    end.

(** [for x in xs: body x] *)
Fixpoint for_each {St A} (xs : list A) (body : A -> M St unit) : M St unit :=
  match xs with
  | [] => ret tt
  | x :: xs' => body x ;; for_each xs' body
  end.

(** ** The BLE transport (bluepy), as the program sees it

    Every call may return or raise; the answer to a call is taken from a
    script indexed by the number of transport calls made before it. *)

Record ScanEntry : Type := mkScanEntry {
  addr : string;
  scanData : gmap Z string
}.

Definition getValueText (dev : ScanEntry) (sdid : Z) : option string :=
  scanData dev !! sdid.

Record Peripheral : Type := mkPeripheral { deviceAddr : string }.
Record Characteristic : Type := mkCharacteristic { char_uuid : string }.

Record Transport : Type := mkTransport {
  scan_answer : nat -> Res (list ScanEntry);
  Peripheral_answer : nat -> string -> Res Peripheral;
  getCharacteristics_answer : nat -> Peripheral -> string -> Res (list Characteristic);
  read_answer : nat -> Characteristic -> Res (list byte);
  disconnect_answer : nat -> Peripheral -> Res unit
}.

Definition transport_call {St A} (answer : nat -> Res A) : M St A :=
  fun s w => (s, tick w, answer (clock w)).

(** ** Class Sensors *)

Definition HUMIDITY : nat := 0.
Definition RADON_SHORT_TERM_AVG : nat := 1.
Definition RADON_LONG_TERM_AVG : nat := 2.
Definition TEMPERATURE : nat := 3.
Definition REL_ATM_PRESSURE : nat := 4.
Definition CO2_LVL : nat := 5.
Definition VOC_LVL : nat := 6.

Record Sensors : Type := mkSensors {
  sensor_version : pyval;
  numberOfSensors : nat;
  sensor_data : list pyval;
  sensor_units : list string
}.

Definition unit_table : list string :=
  ["%rH"; "Bq/m3"; "Bq/m3"; "degC"; "hPa"; "ppm"; "ppb"].

Definition Sensors_init (numberOfSensors : nat) : Sensors :=
  mkSensors VNone numberOfSensors (replicate numberOfSensors VNone)
    (take numberOfSensors unit_table).

Definition set_sensor_version (v : pyval) (self : Sensors) : Sensors :=
  mkSensors v (numberOfSensors self) (sensor_data self) (sensor_units self).

Definition set_sensor_data (d : list pyval) (self : Sensors) : Sensors :=
  mkSensors (sensor_version self) (numberOfSensors self) d (sensor_units self).

Definition conv2radon (radon_raw : Z) : pyval :=
  let radon := VStr "N/A" in
  if (0 <=? radon_raw) && (radon_raw <=? 16383) then VInt radon_raw else radon.

(** int to float.  Exact for 0 <= z < 2^53; the fields that
    [struct.unpack] produces are below 2^16. *)
Definition float_of_int (z : Z) : float := PrimFloat.of_uint63 (Uint63.of_Z z).

Definition nl : string := String (ascii_of_nat 10) EmptyString.

Definition Sensors_set (rawData : list Z) : M Sensors unit :=
  let* version := lift (getitem rawData 0) in
  modify (set_sensor_version (VInt version)) ;;
  if version =? 1 then
    let* r1 := lift (getitem rawData 1) in
    let* r4 := lift (getitem rawData 4) in
    let* r5 := lift (getitem rawData 5) in
    let* r6 := lift (getitem rawData 6) in
    let* r7 := lift (getitem rawData 7) in
    let* r8 := lift (getitem rawData 8) in
    let* r9 := lift (getitem rawData 9) in
    let processor : gmap nat pyval :=
      <[HUMIDITY := VFloat (float_of_int r1 / 2.0)%float]>
      (<[RADON_SHORT_TERM_AVG := conv2radon r4]>
      (<[RADON_LONG_TERM_AVG := conv2radon r5]>
      (<[TEMPERATURE := VFloat (float_of_int r6 / 100.0)%float]>
      (<[REL_ATM_PRESSURE := VFloat (float_of_int r7 / 50.0)%float]>
      (<[CO2_LVL := VFloat (float_of_int r8 * 1.0)%float]>
      (<[VOC_LVL := VFloat (float_of_int r9 * 1.0)%float]> ∅)))))) in
    let* self := get in
    for_each (seq 0 (numberOfSensors self)) (fun sensor =>
      match processor !! sensor with
      | None => raise KeyError
      | Some value =>
          let* self := get in
          if (sensor <? length (sensor_data self))%nat
          then modify (set_sensor_data (<[sensor := value]> (sensor_data self)))
          else raise IndexError
      end)
  else
    print ("ERROR: Unknown sensor version." ++ nl)%string ;;
    print ("GUIDE: Contact Airthings for support." ++ nl)%string ;;
    sys_exit 1.

Definition getValue (self : Sensors) (sensor_index : nat) : Res pyval :=
  getitem (sensor_data self) sensor_index.

Definition getUnit (self : Sensors) (sensor_index : nat) : Res string :=
  getitem (sensor_units self) sensor_index.

(** ** [struct.unpack('<BBBBHHHHHHHH', rawdata)]

    Twenty bytes: four unsigned bytes, then eight little-endian unsigned
    16-bit words (no padding with [<]); a tuple of twelve ints.  Any other
    length raises [struct.error]. *)

Fixpoint unpack_H (bs : list byte) : list Z :=
  match bs with
  | lo :: hi :: rest => le_uint [lo; hi] :: unpack_H rest
  | _ => []
  end.

Definition unpack (rawdata : list byte) : Res (list Z) :=
  if (length rawdata =? 20)%nat
  then Ret (map byte_int (take 4 rawdata) ++ unpack_H (drop 4 rawdata))
  else Raise StructError.

(** The decoding steps of [WavePlus.read]: what it does with the bytes the
    characteristic returned, [numSensors] being [self.numSensors]. *)
Definition decode_frame {St} (numSensors : nat) (rawdata : list byte) : M St Sensors :=
  let* rawdata := lift (unpack rawdata) in
  let sensors := Sensors_init numSensors in
  let* r := on_local sensors (Sensors_set rawdata) in
  ret (fst r).

(** ** Class WavePlus *)

Record WavePlus : Type := mkWavePlus {
  periph : option Peripheral;
  curr_val_char : option Characteristic;
  MacAddr : option string;
  SN : Z;
  uuid : string;
  numSensors : nat
}.

(** [SerialNumber] is the int that argparse read ([type = int]). *)
Definition WavePlus_init (SerialNumber : Z) (hasAirQuality : bool) : WavePlus :=
  mkWavePlus None None None SerialNumber
    (if hasAirQuality then "b42e2a68-ade7-11e4-89d3-123b93f75cba"
     else "b42e4dcc-ade7-11e4-89d3-123b93f75cba")
    (if hasAirQuality then 7%nat else 4%nat).

Definition set_periph (p : option Peripheral) (self : WavePlus) : WavePlus :=
  mkWavePlus p (curr_val_char self) (MacAddr self) (SN self) (uuid self) (numSensors self).

Definition set_curr_val_char (c : option Characteristic) (self : WavePlus) : WavePlus :=
  mkWavePlus (periph self) c (MacAddr self) (SN self) (uuid self) (numSensors self).

Definition set_MacAddr (a : option string) (self : WavePlus) : WavePlus :=
  mkWavePlus (periph self) (curr_val_char self) a (SN self) (uuid self) (numSensors self).

Definition getNumSensors : M WavePlus nat :=
  let* self := get in ret (numSensors self).

(** [SN == self.SN], where [SN] is what [parseSerialNumber] returned (an
    int or the str "Unknown") and [self.SN] is an int. *)
Definition eq_int (v : pyval) (n : Z) : bool :=
  match v with
  | VInt z => z =? n
  | _ => false
  end.

Section Session.

Variable tr : Transport.

(** [for dev in devices: ...], with its [break]. *)
Fixpoint connect_for (devices : list ScanEntry) : M WavePlus unit :=
  match devices with
  | [] => ret tt
  | dev :: rest =>
      let ManuData := getValueText dev 255 in
      let* parsed := lift (parseSerialNumber ManuData) in
      let* self := get in
      if eq_int parsed (SN self)
      then modify (set_MacAddr (Some (addr dev)))
      else connect_for rest
  end.

(** [while self.MacAddr is None and searchCount < 50: ...], by recursion on
    [remaining = 50 - searchCount]. *)
Fixpoint connect_while (remaining : nat) : M WavePlus unit :=
  match remaining with
  | O => ret tt
  | S remaining' =>
      let* self := get in
      match MacAddr self with
      | Some _ => ret tt
      | None =>
          let* devices := transport_call (scan_answer tr) in
          connect_for devices ;;
          connect_while remaining'
      end
  end.

Definition connect_failed : string :=
  "Failed to connect. Check if device is on and if you are close enough.".

(** [connect], first part: auto-discover the device on first connection. *)
Definition connect_discover : M WavePlus unit :=
  let* self := get in
  match MacAddr self with
  | Some _ => ret tt
  | None =>
      connect_while 50 ;;
      let* self := get in
      match MacAddr self with
      | Some _ => ret tt
      | None =>
          print "ERROR: Could not find device." ;;
          print "GUIDE: (1) Please verify the serial number." ;;
          print "       (2) Ensure that the device is advertising." ;;
          print "       (3) Retry connection." ;;
          sys_exit 1
      end
  end.

(** [connect], second part: connect to the device. *)
Definition connect_device : M WavePlus unit :=
  try_except
    (let* self := get in
     match periph self with
     | Some _ => ret tt
     | None =>
         match MacAddr self with
         | Some a =>
             let* p := transport_call (fun t => Peripheral_answer tr t a) in
             modify (set_periph (Some p))
         | None => raise AttributeError (* not reached: the address is set *)
         end
     end ;;
     let* self := get in
     match curr_val_char self with
     | Some _ => ret tt
     | None =>
         match periph self with
         | Some p =>
             let* chars :=
               transport_call (fun t => getCharacteristics_answer tr t p (uuid self)) in
             let* c := lift (getitem chars 0) in
             modify (set_curr_val_char (Some c))
         | None => raise AttributeError (* not reached: the peripheral is set *)
         end
     end)
    (fun e => raise (Exception connect_failed)).

Definition connect : M WavePlus unit :=
  connect_discover ;;
  connect_device.

Definition read : M WavePlus Sensors :=
  let* self := get in
  match curr_val_char self with
  | None =>
      print "ERROR: Devices are not connected." ;;
      sys_exit 1
  | Some c =>
      let* rawdata := transport_call (fun t => read_answer tr t c) in
      decode_frame (numSensors self) rawdata
  end.

Definition disconnect : M WavePlus unit :=
  let* self := get in
  match periph self with
  | Some p =>
      transport_call (fun t => disconnect_answer tr t p) ;;
      modify (set_periph None) ;;
      modify (set_curr_val_char None)
  | None => ret tt
  end.

(** ** The program *)

Record Args : Type := mkArgs {
  serial : Z;
  period : float;
  hasAirQuality : bool;
  plain : option string
}.

(** [not args.plain]: the option takes a value; None and the empty str are
    falsy. *)
Definition not_plain (args : Args) : bool :=
  match plain args with
  | None => true
  | Some text => String.eqb text ""
  end.

Definition labels : list string :=
  ["Humidity"; "Radon ST avg"; "Radon LT avg"; "Temperature"; "Pressure";
   "CO2 level"; "VOC level"].

(** [formater[x]()]: the dict has the keys 0..6. *)
Definition formater (sensors : Sensors) (x : nat) : Res (pyval * string) :=
  if (x <? 7)%nat then
    let? value := getValue sensors x in
    let? unit := getUnit sensors x in
    Ret (value, unit)
  else Raise KeyError.

Fixpoint comprehension {A B} (f : A -> Res B) (xs : list A) : Res (list B) :=
  match xs with
  | [] => Ret []
  | x :: xs' => let? y := f x in let? ys := comprehension f xs' in Ret (y :: ys)
  end.

(** [time.sleep]: a negative argument raises ValueError; the wait itself
    is not modelled. *)
Definition time_sleep (secs : float) : M WavePlus unit :=
  if (secs <? 0)%float then raise ValueError else ret tt.

Variable args : Args.

Definition loop_body : M WavePlus unit :=
  connect ;;
  let* sensors := read in
  let* numSensors := getNumSensors in
  let* data := lift (comprehension (formater sensors) (seq 0 numSensors)) in
  output (Row (not_plain args) data) ;;
  disconnect ;;
  time_sleep (period args).

(** [while True: ...], cut after [cycles] rounds. *)
Fixpoint while_True (cycles : nat) : M WavePlus unit :=
  match cycles with
  | O => ret tt
  | S cycles' => loop_body ;; while_True cycles'
  end.

Definition Press_ctrl_C : string :=
  (nl ++ "Press ctrl+C to exit program" ++ nl)%string.

Definition str_int (z : Z) : string := NilZero.string_of_int (Z.to_int z).

Definition try_block (cycles : nat) : M WavePlus unit :=
  (if not_plain args then print Press_ctrl_C else ret tt) ;;
  print ("Device serial number: " ++ str_int (serial args))%string ;;
  let* n := getNumSensors in
  output (Header (not_plain args) (take n labels)) ;;
  while_True cycles.

(** [except Exception as e: ...] and [finally: waveplus.disconnect()], for
    an exception [e] that left the try block. *)
Definition except_finally (e : Exn) : M WavePlus unit :=
  (if is_Exception e then output (StrOf e) ;; print "" else ret tt) ;;
  disconnect ;;
  if is_Exception e then ret tt else raise e.

End Session.

(** The program after [cycles] rounds of the loop: still in the loop, or
    ended, with the exception that ended the process if there is one. *)
Inductive Status : Type :=
  | Running
  | Terminated (uncaught : option Exn).

Definition main (tr : Transport) (args : Args) (cycles : nat)
  : WavePlus * World * Status :=
  let waveplus := WavePlus_init (serial args) (hasAirQuality args) in
  match try_block tr args cycles waveplus (mkWorld [] 0) with
  | (self, w, Ret _) => (self, w, Running)
  | (self, w, Raise e) =>
      match except_finally tr e self w with
      | (self', w', Ret _) => (self', w', Terminated None)
      | (self', w', Raise e') => (self', w', Terminated (Some e'))
      end
  end.

(** ** Inputs used in the examples *)

(** 01 00 00 00, then the words 0064 0000 0000 0032 0190 03E8 0190 0096,
    each little-endian. *)
Definition frame_example : list byte :=
  [x01; x00; x00; x00;
   x64; x00; x00; x00; x00; x00; x32; x00;
   x90; x01; xe8; x03; x90; x01; x96; x00].

Definition w0 : World := mkWorld [] 0.

(** A frame of 16 bytes, first byte 2. *)
Definition frame_16 : list byte :=
  [x02; x00; x00; x00; x64; x00; x00; x00; x00; x00; x32; x00; x90; x01; xe8; x03].

(** The [i]-th of the eight little-endian words that follow the 4 leading
    bytes of a frame. *)
Definition word (frame : list byte) (i : nat) : Z :=
  le_uint (take 2 (drop (4 + 2 * i) frame)).

(** The [i]-th byte of a frame, as an int. *)
Definition byte_at (frame : list byte) (i : nat) : Z :=
  match frame !! i with
  | Some b => byte_int b
  | None => 0
  end.

(** The values [Sensors.set] computes from a version-1 frame, in the order
    of the sensor indices. *)
Definition derived (frame : list byte) : list pyval :=
  [ VFloat (float_of_int (byte_at frame 1) / 2.0)%float;
    conv2radon (word frame 0);
    conv2radon (word frame 1);
    VFloat (float_of_int (word frame 2) / 100.0)%float;
    VFloat (float_of_int (word frame 3) / 50.0)%float;
    VFloat (float_of_int (word frame 4) * 1.0)%float;
    VFloat (float_of_int (word frame 5) * 1.0)%float ].

Definition is_populated (v : pyval) : bool :=
  match v with
  | VNone => false
  | _ => true
  end.

(** How many fields of a reading hold a value. *)
Definition populated (sensors : Sensors) : nat :=
  length (List.filter is_populated (sensor_data sensors)).

(** Advertisements: a Wave Plus with the serial number 1234567890, a
    device of another manufacturer, a device without manufacturer data,
    and a device whose manufacturer data is the single byte 34. *)
Definition waveplus_adv : ScanEntry :=
  mkScanEntry "80:6f:b0:aa:bb:cc" {[ 255 := "3403d2029649" ]}.
Definition other_adv : ScanEntry :=
  mkScanEntry "4c:00:02:15:00:01" {[ 255 := "4c0002150000" ]}.
Definition bare_adv : ScanEntry :=
  mkScanEntry "12:34:56:78:9a:bc" ∅.
Definition short_adv : ScanEntry :=
  mkScanEntry "de:ad:be:ef:00:01" {[ 255 := "34" ]}.

(** A transport on which every call returns; [scans t] is what the scan
    made as call number [t] sees. *)
Definition tr_with (scans : nat -> list ScanEntry) : Transport :=
  mkTransport
    (fun t => Ret (scans t))
    (fun _ a => Ret (mkPeripheral a))
    (fun _ _ u => Ret [mkCharacteristic u])
    (fun _ _ => Ret frame_example)
    (fun _ _ => Ret tt).

(** The device is seen by every scan. *)
Definition tr_ok : Transport := tr_with (fun _ => [other_adv; waveplus_adv]).

(** Three advertisements per scan; only the 40th scan sees the device. *)
Definition tr_40th : Transport :=
  tr_with (fun t => if (t =? 39)%nat then [other_adv; bare_adv; waveplus_adv]
                    else [other_adv; bare_adv; other_adv]).

(** The device is never seen. *)
Definition tr_absent : Transport := tr_with (fun _ => [other_adv; bare_adv]).

(** The first scan sees the one-byte advertisement, then the device. *)
Definition tr_short_first : Transport := tr_with (fun _ => [short_adv; waveplus_adv]).

(** The connection is refused once, on the second transport call (the
    first is the scan that finds the device); every other call returns. *)
Definition tr_refuse_once : Transport :=
  mkTransport
    (fun _ => Ret [waveplus_adv])
    (fun t a => if (t =? 1)%nat then Raise (BTLEException "Failed to connect to peripheral")
                else Ret (mkPeripheral a))
    (fun _ _ u => Ret [mkCharacteristic u])
    (fun _ _ => Ret frame_example)
    (fun _ _ => Ret tt).

(** The transport's disconnect call raises; every other call returns. *)
Definition tr_close_fails : Transport :=
  mkTransport
    (fun _ => Ret [waveplus_adv])
    (fun _ a => Ret (mkPeripheral a))
    (fun _ _ u => Ret [mkCharacteristic u])
    (fun _ _ => Ret frame_example)
    (fun _ _ => Raise (BTLEException "Helper not started (did you call connect()?)")).

Definition args_example : Args := mkArgs 1234567890 3 true None.

(** ** Session states

    A characteristic is held only together with a connection. *)
Definition held_together (self : WavePlus) : Prop :=
  periph self = None -> curr_val_char self = None.

(** The states a session gets into from its construction by calls of its
    methods, whatever the transport answers and whenever they are made. *)
Inductive reachable (tr : Transport) (SerialNumber : Z) (hasAirQuality : bool)
  : WavePlus -> Prop :=
  | reach_init :
      reachable tr SerialNumber hasAirQuality (WavePlus_init SerialNumber hasAirQuality)
  | reach_connect (self : WavePlus) (w : World) :
      reachable tr SerialNumber hasAirQuality self ->
      reachable tr SerialNumber hasAirQuality (fst (fst (connect tr self w)))
  | reach_read (self : WavePlus) (w : World) :
      reachable tr SerialNumber hasAirQuality self ->
      reachable tr SerialNumber hasAirQuality (fst (fst (read tr self w)))
  | reach_disconnect (self : WavePlus) (w : World) :
      reachable tr SerialNumber hasAirQuality self ->
      reachable tr SerialNumber hasAirQuality (fst (fst (disconnect tr self w))).

(** ** Advertisements against a target serial number

    An advertisement answers the target when [parseSerialNumber] returns
    the target for it; it passes when [parseSerialNumber] returns something
    else (it does not raise). *)
Definition answers (target : Z) (dev : ScanEntry) : Prop :=
  parseSerialNumber (getValueText dev 255) = Ret (VInt target).

Definition passes (target : Z) (dev : ScanEntry) : Prop :=
  exists v : pyval,
    parseSerialNumber (getValueText dev 255) = Ret v /\ eq_int v target = false.

(** The scans [from], ..., [from + count - 1] return, and all their
    advertisements pass. *)
Definition bursts_pass (tr : Transport) (target : Z) (from count : nat) : Prop :=
  forall j : nat, (j < count)%nat ->
    exists devices : list ScanEntry,
      scan_answer tr (from + j) = Ret devices /\ Forall (passes target) devices.

Definition not_found : list Output :=
  [Line "ERROR: Could not find device.";
   Line "GUIDE: (1) Please verify the serial number.";
   Line "       (2) Ensure that the device is advertising.";
   Line "       (3) Retry connection."].

(** The world when the program enters its loop: the banner and the header
    are printed, no transport call is made yet. *)
Definition started (args : Args) : World :=
  mkWorld
    ((if not_plain args then [Line Press_ctrl_C] else [])
     ++ [Line ("Device serial number: " ++ str_int (serial args))%string;
         Header (not_plain args) (take (if hasAirQuality args then 7%nat else 4%nat) labels)])
    0.

(** How the process ends when the exception handling of [main] is done. *)
Definition ended (r : WavePlus * World * Res unit) : WavePlus * World * Status :=
  match r with
  | (self, w, Ret _) => (self, w, Terminated None)
  | (self, w, Raise e) => (self, w, Terminated (Some e))
  end.

(** ** The manufacturer data of a device

    What a device with a given serial number advertises: the manufacturer
    ID 0x0334 and the serial number, both little-endian. *)
Definition byte_of_Z (z : Z) : byte :=
  match Byte.of_N (Z.to_N z) with
  | Some b => b
  | None => x00
  end.

Fixpoint le_bytes (count : nat) (n : Z) : list byte :=
  match count with
  | O => []
  | S count' => byte_of_Z (n mod 256) :: le_bytes count' (n / 256)
  end.

Definition manufacturer_data (serial : Z) : list byte :=
  le_bytes 2 0x0334 ++ le_bytes 4 serial.

(** The device is there, but has no characteristic of the wanted UUID. *)
Definition tr_no_characteristic : Transport :=
  mkTransport
    (fun _ => Ret [waveplus_adv])
    (fun _ a => Ret (mkPeripheral a))
    (fun _ _ _ => Ret [])
    (fun _ _ => Ret frame_example)
    (fun _ _ => Ret tt).

(** ** What is printed

    Text is a line or the text of an exception.  A header and a row are
    well formed for the arguments of the program when they have the style,
    the sensor count and the labels or units that the arguments fix, and
    every cell of a row holds a value. *)
Definition is_text (o : Output) : Prop :=
  match o with
  | Line _ | StrOf _ => True
  | _ => False
  end.

Definition well_formed (args : Args) (o : Output) : Prop :=
  let count := if hasAirQuality args then 7%nat else 4%nat in
  match o with
  | Header pretty names => pretty = not_plain args /\ names = take count labels
  | Row pretty cells =>
      pretty = not_plain args /\
      map snd cells = take count unit_table /\
      Forall (fun cell => is_populated (fst cell) = true) cells
  | _ => True
  end.

(** From [w] to [w'] only text was printed. *)
Definition prints_text (w w' : World) : Prop :=
  exists extra : list Output, stdout w' = stdout w ++ extra /\ Forall is_text extra.

(** * Properties *)

(** ** Bytes and little-endian integers *)

Lemma byte_int_range (b : byte) : 0 <= byte_int b < 256.
Proof.
  unfold byte_int. pose proof (Byte.to_N_bounded b). lia.
Qed.

Lemma lor_shiftl_add (a b k : Z) :
  0 <= k -> 0 <= a < 2 ^ k -> 0 <= b -> Z.lor a (Z.shiftl b k) = a + b * 2 ^ k.
Proof.
  intros Hk Ha Hb.
  rewrite Z.shiftl_mul_pow2 by lia.
  rewrite <- Z.lxor_lor, <- Z.add_nocarry_lxor; try reflexivity.
  all: apply Z.bits_inj'; intros n Hn; rewrite Z.land_spec, Z.bits_0.
  all: destruct (Z.lt_ge_cases n k) as [Hlt | Hge].
  all: try (rewrite Z.mul_pow2_bits_low by lia; apply andb_false_r).
  all: destruct (Z.eq_dec a 0) as [-> | Hne]; [now rewrite Z.bits_0 |].
  all: assert (Z.log2 a < k) by (apply Z.log2_lt_pow2; lia).
  all: rewrite (Z.bits_above_log2 a n); [reflexivity | lia | lia].
Qed.

Lemma le_uint_range (bs : list byte) : 0 <= le_uint bs < 256 ^ Z.of_nat (length bs).
Proof.
  induction bs as [| b bs IH]; simpl le_uint; simpl length.
  - simpl. lia.
  - rewrite Nat2Z.inj_succ, Z.pow_succ_r by lia.
    pose proof (byte_int_range b). lia.
Qed.

(** ** conv2radon *)

(** C3: a raw radon value in [0, 16383] is returned unchanged; a value in
    [16384, 65535] gives the "N/A" sentinel. *)
Theorem conv2radon_spec (radon_raw : Z) :
  (0 <= radon_raw <= 16383 -> conv2radon radon_raw = VInt radon_raw) /\
  (16384 <= radon_raw <= 65535 -> conv2radon radon_raw = VStr "N/A").
Proof.
  unfold conv2radon. split; intros H.
  - destruct (Z.leb_spec 0 radon_raw), (Z.leb_spec radon_raw 16383); simpl; first [reflexivity | lia].
  - destruct (Z.leb_spec 0 radon_raw), (Z.leb_spec radon_raw 16383); simpl; first [reflexivity | lia].
Qed.

Lemma conv2radon_spec_witness :
  conv2radon 16383 = VInt 16383 /\ conv2radon 16384 = VStr "N/A".
Proof.
  split.
  - apply (proj1 (conv2radon_spec 16383)). lia.
  - apply (proj2 (conv2radon_spec 16384)). lia.
Defined.

(** ** parseSerialNumber *)

Lemma fromhex_None_text : fromhex "None" = Raise ValueError.
Proof. reflexivity. Qed.

Lemma fromhex_not_None_text (text : string) (bs : list byte) :
  fromhex text = Ret bs -> String.eqb text "None" = false.
Proof.
  intros H. destruct (String.eqb_spec text "None") as [-> | Hne]; [| reflexivity].
  rewrite fromhex_None_text in H. discriminate.
Qed.

(** [fromhex] raises nothing but ValueError. *)
Lemma fromhex_raises (n : nat) :
  forall (text : string) (e : Exn),
    (String.length text <= n)%nat -> fromhex text = Raise e -> e = ValueError.
Proof.
  induction n as [| n IH]; intros text e Hlen H.
  - destruct text; simpl in *; [discriminate | lia].
  - destruct text as [| c rest]; simpl in *; [discriminate |].
    destruct (is_space c).
    + apply (IH rest e); [lia | exact H].
    + destruct rest as [| d rest']; [congruence |].
      destruct (hexval c), (hexval d); try congruence.
      destruct (fromhex rest') eqn:E; simpl in H; [discriminate |].
      inversion H; subst. apply (IH rest' e); [simpl in Hlen; lia | exact E].
Qed.

Lemma manufacturer_id (b0 b1 : byte) :
  Z.lor (Z.shiftl (byte_int b1) 8) (byte_int b0) = byte_int b0 + 256 * byte_int b1.
Proof.
  pose proof (byte_int_range b0). pose proof (byte_int_range b1).
  rewrite Z.lor_comm, lor_shiftl_add; lia.
Qed.

Lemma serial_bits (b2 b3 b4 b5 : byte) :
  Z.lor (Z.lor (Z.lor (byte_int b2) (Z.shiftl (byte_int b3) 8))
           (Z.shiftl (byte_int b4) 16)) (Z.shiftl (byte_int b5) 24)
  = le_uint [b2; b3; b4; b5].
Proof.
  pose proof (byte_int_range b2). pose proof (byte_int_range b3).
  pose proof (byte_int_range b4). pose proof (byte_int_range b5).
  rewrite (lor_shiftl_add (byte_int b2)) by lia.
  rewrite (lor_shiftl_add _ (byte_int b4)) by lia.
  rewrite (lor_shiftl_add _ (byte_int b5)) by lia.
  simpl le_uint. lia.
Qed.

(** What [parseSerialNumber] does with the bytes of a text that is
    hexadecimal. *)
Lemma parseSerialNumber_bytes (text : string) (bs : list byte) :
  fromhex text = Ret bs ->
  parseSerialNumber (Some text) =
    match bs with
    | b0 :: b1 :: rest =>
        if byte_int b0 + 256 * byte_int b1 =? 0x0334 then
          match rest with
          | b2 :: b3 :: b4 :: b5 :: _ => Ret (VInt (le_uint [b2; b3; b4; b5]))
          | _ => Raise IndexError
          end
        else Ret Unknown
    | _ => Raise IndexError
    end.
Proof.
  intros H. unfold parseSerialNumber.
  rewrite (fromhex_not_None_text text bs H), H. simpl rbind.
  destruct bs as [| b0 [| b1 rest]]; try reflexivity.
  simpl. rewrite manufacturer_id.
  destruct (byte_int b0 + 256 * byte_int b1 =? 820); [| reflexivity].
  destruct rest as [| b2 [| b3 [| b4 [| b5 rest]]]]; try reflexivity.
  simpl. rewrite serial_bits. reflexivity.
Qed.

(** C4: on a payload of at least 6 bytes whose first two bytes read, little
    endian, as 0x0334, the result is the unsigned 32-bit integer held little
    endian by bytes 2 to 5; on absent input, and on a payload whose
    manufacturer-ID field differs from 0x0334, the result is Unknown. *)
Theorem parseSerialNumber_spec :
  (forall (text : string) (bs : list byte),
      fromhex text = Ret bs ->
      (6 <= length bs)%nat ->
      le_uint (take 2 bs) = 0x0334 ->
      parseSerialNumber (Some text) = Ret (VInt (le_uint (take 4 (drop 2 bs)))) /\
      0 <= le_uint (take 4 (drop 2 bs)) < 2 ^ 32) /\
  parseSerialNumber None = Ret Unknown /\
  (forall (text : string) (bs : list byte),
      fromhex text = Ret bs ->
      (2 <= length bs)%nat ->
      le_uint (take 2 bs) <> 0x0334 ->
      parseSerialNumber (Some text) = Ret Unknown).
Proof.
  split; [| split; [reflexivity |]].
  - intros text bs H Hlen Hid.
    rewrite (parseSerialNumber_bytes text bs H).
    destruct bs as [| b0 [| b1 [| b2 [| b3 [| b4 [| b5 rest]]]]]]; simpl in Hlen; try lia.
    simpl in Hid. replace (byte_int b0 + 256 * byte_int b1) with 820 by lia.
    simpl. split; [reflexivity |].
    pose proof (le_uint_range [b2; b3; b4; b5]) as R. simpl in R. simpl. lia.
  - intros text bs H Hlen Hid.
    rewrite (parseSerialNumber_bytes text bs H).
    destruct bs as [| b0 [| b1 rest]]; simpl in Hlen; try lia.
    simpl in Hid.
    destruct (Z.eqb_spec (byte_int b0 + 256 * byte_int b1) 820); [lia | reflexivity].
Qed.

Lemma parseSerialNumber_spec_witness :
  parseSerialNumber (Some "3403d2029649") = Ret (VInt 1234567890) /\
  parseSerialNumber (Some "4c0002150000") = Ret Unknown.
Proof.
  split.
  - apply (proj1 parseSerialNumber_spec "3403d2029649" [x34; x03; xd2; x02; x96; x49]).
    + reflexivity.
    + simpl. lia.
    + reflexivity.
  - apply (proj2 (proj2 parseSerialNumber_spec) "4c0002150000"
             [x4c; x00; x02; x15; x00; x00]).
    + reflexivity.
    + simpl. lia.
    + vm_compute. discriminate.
Defined.

(** The text bluepy hands over for a payload is read back as that
    payload: every payload is the bytes of some text. *)
Lemma fromhex_hexlify (bs : list byte) : fromhex (hexlify bs) = Ret bs.
Proof.
  induction bs as [| b bs IH]; [reflexivity |].
  cbn [hexlify fromhex].
  destruct b; cbn; rewrite IH; reflexivity.
Qed.

(** C10: the text "None" is treated as absent input: the result is
    Unknown, as for None, and never a serial number. *)
Theorem parseSerialNumber_None_text :
  parseSerialNumber (Some "None") = Ret Unknown /\
  parseSerialNumber (Some "None") = parseSerialNumber None /\
  (forall n : Z, parseSerialNumber (Some "None") <> Ret (VInt n)) /\
  (forall n : Z, eq_int Unknown n = false).
Proof.
  repeat split; try reflexivity.
  intros n H. vm_compute in H. discriminate.
Qed.

(** C5, as stated, fails: a payload of one byte, a payload of four bytes
    that starts with the manufacturer ID, and the empty payload all make
    [parseSerialNumber] raise IndexError. *)
Lemma parseSerialNumber_short_raises :
  parseSerialNumber (Some "34") = Raise IndexError /\
  parseSerialNumber (Some "3403d202") = Raise IndexError /\
  parseSerialNumber (Some "") = Raise IndexError /\
  parseSerialNumber (Some "34") <> Ret Unknown.
Proof.
  repeat split; try reflexivity.
  intros H. vm_compute in H. discriminate.
Qed.

(** C5, amended: on a payload of fewer than 6 bytes the result is Unknown
    when the payload has at least 2 bytes and its manufacturer ID differs
    from 0x0334; a payload of 0 or 1 bytes, and one of 2 to 5 bytes that
    carries the ID 0x0334, raise IndexError; a text that is not hexadecimal
    (and is not "None") raises ValueError. *)
Theorem parseSerialNumber_short :
  (forall (text : string) (bs : list byte),
      fromhex text = Ret bs ->
      (length bs < 6)%nat ->
      parseSerialNumber (Some text) =
        if (2 <=? length bs)%nat && negb (le_uint (take 2 bs) =? 0x0334)
        then Ret Unknown else Raise IndexError) /\
  (forall (text : string) (e : Exn),
      fromhex text = Raise e ->
      text <> "None" ->
      parseSerialNumber (Some text) = Raise ValueError).
Proof.
  split.
  - intros text bs H Hlen.
    rewrite (parseSerialNumber_bytes text bs H).
    destruct bs as [| b0 [| b1 rest]]; try reflexivity.
    change (take 2 (b0 :: b1 :: rest)) with [b0; b1].
    cbn [length Nat.leb andb le_uint].
    replace (byte_int b0 + 256 * (byte_int b1 + 256 * 0))
      with (byte_int b0 + 256 * byte_int b1) by lia.
    destruct (byte_int b0 + 256 * byte_int b1 =? 820); [| reflexivity].
    destruct rest as [| b2 [| b3 [| b4 [| b5 rest]]]]; try reflexivity.
    simpl in Hlen. lia.
  - intros text e H Hne. unfold parseSerialNumber.
    destruct (String.eqb_spec text "None") as [-> | _]; [congruence |].
    rewrite H. simpl.
    rewrite (fromhex_raises (String.length text) text e); [reflexivity | lia | exact H].
Qed.

Lemma parseSerialNumber_short_witness :
  parseSerialNumber (Some "4c00") = Ret Unknown /\
  parseSerialNumber (Some "3403") = Raise IndexError /\
  parseSerialNumber (Some "xyz") = Raise ValueError.
Proof.
  split; [| split].
  - apply (proj1 parseSerialNumber_short "4c00" [x4c; x00]).
    + reflexivity.
    + simpl. lia.
  - apply (proj1 parseSerialNumber_short "3403" [x34; x03]).
    + reflexivity.
    + simpl. lia.
  - apply (proj2 parseSerialNumber_short "xyz" ValueError).
    + reflexivity.
    + discriminate.
Defined.

(** ** Sensors.set and the decoding of a frame *)

Lemma byte_int_1 (b : byte) : byte_int b = 1 -> b = x01.
Proof.
  destruct b; intros H; try reflexivity; vm_compute in H; discriminate.
Qed.

Lemma Sensors_set_version_1 (n : nat) (r1 r2 r3 r4 r5 r6 r7 r8 r9 r10 r11 : Z) (w : World) :
  (n <= 7)%nat ->
  Sensors_set [1; r1; r2; r3; r4; r5; r6; r7; r8; r9; r10; r11] (Sensors_init n) w =
    (mkSensors (VInt 1) n
       (take n [ VFloat (float_of_int r1 / 2.0)%float;
                 conv2radon r4;
                 conv2radon r5;
                 VFloat (float_of_int r6 / 100.0)%float;
                 VFloat (float_of_int r7 / 50.0)%float;
                 VFloat (float_of_int r8 * 1.0)%float;
                 VFloat (float_of_int r9 * 1.0)%float ])
       (take n unit_table),
     w, Ret tt).
Proof.
  intros Hn.
  do 8 (destruct n as [| n]; [vm_compute; reflexivity |]).
  lia.
Qed.

Lemma Sensors_set_other_version (n : nat) (version : Z) (rest : list Z) (w : World) :
  version <> 1 ->
  Sensors_set (version :: rest) (Sensors_init n) w =
    (mkSensors (VInt version) n (replicate n VNone) (take n unit_table),
     emit (Line ("GUIDE: Contact Airthings for support." ++ nl))
       (emit (Line ("ERROR: Unknown sensor version." ++ nl)) w),
     Raise (SystemExit 1)).
Proof.
  intros Hv. unfold Sensors_set, bind, lift, modify.
  change (getitem (version :: rest) 0) with (Ret version). cbv iota beta.
  destruct (Z.eqb_spec version 1) as [E | _]; [contradiction |].
  reflexivity.
Qed.

Lemma decode_frame_version_1 {St} (n : nat) (frame : list byte) (s : St) (w : World) :
  length frame = 20%nat ->
  frame !! 0%nat = Some x01 ->
  (n <= 7)%nat ->
  decode_frame n frame s w =
    (s, w, Ret (mkSensors (VInt 1) n (take n (derived frame)) (take n unit_table))).
Proof.
  intros Hlen H0 Hn.
  do 20 (destruct frame as [| ? frame]; [discriminate Hlen |]).
  destruct frame; [| discriminate Hlen].
  simpl in H0. injection H0 as ->.
  unfold decode_frame, bind, lift, unpack, on_local, ret.
  cbn [length Nat.eqb take drop map unpack_H app].
  change (byte_int "001") with 1.
  rewrite Sensors_set_version_1 by exact Hn.
  reflexivity.
Qed.

(** C1, as stated, fails on its own example frame: the humidity is derived
    from the second byte of the frame and the radon averages from the first
    two words, so the frame decodes to 0.0, 100, 0, 0.0, 1.0, 400.0, 1000.0
    and not to 50.0, 50, 0, 4.0, 20.0, 400, 150. *)
Lemma decode_frame_example_not_as_claimed :
  exists sensors : Sensors,
    decode_frame 7 frame_example tt w0 = (tt, w0, Ret sensors) /\
    word frame_example 0 = 100 /\
    getValue sensors HUMIDITY = Ret (VFloat 0) /\
    getValue sensors HUMIDITY
      <> Ret (VFloat (float_of_int (word frame_example 0) / 2.0)%float) /\
    word frame_example 3 = 50 /\
    getValue sensors RADON_SHORT_TERM_AVG = Ret (VInt 100) /\
    getValue sensors RADON_SHORT_TERM_AVG <> Ret (conv2radon (word frame_example 3)) /\
    sensor_data sensors
      <> [VFloat 50; VInt 50; VInt 0; VFloat 4; VFloat 20; VFloat 400; VFloat 150].
Proof.
  eexists. split; [vm_compute; reflexivity |].
  repeat split; try (vm_compute; reflexivity).
  - intros H.
    apply (f_equal (fun r => match r with
                             | Ret (VFloat f) => PrimFloat.eqb f 0
                             | _ => false
                             end)) in H.
    vm_compute in H. discriminate.
  - intros H. vm_compute in H. discriminate.
  - intros H. apply (f_equal (fun l => l !! 1%nat)) in H. vm_compute in H. discriminate.
Qed.

(** C1, amended: for every 20-byte version-1 frame (4 leading bytes and
    eight little-endian words) and a capability of 4 or 7 sensors, the
    values are, up to the sensor count: Humidity = byte[1]/2.0, RadonShortTermAvg =
    conv2radon(word[0]), RadonLongTermAvg = conv2radon(word[1]), Temperature
    = word[2]/100.0, RelAtmPressure = word[3]/50.0, Co2Level = word[4]*1.0,
    VocLevel = word[5]*1.0, with the units of the table; the example frame
    decodes, for 7 sensors, to 0.0 %rH, 100 Bq/m3, 0 Bq/m3, 0.0 degC,
    1.0 hPa, 400.0 ppm, 1000.0 ppb. *)
Theorem decode_frame_derivation :
  (forall (n : nat) (frame : list byte) (w : World),
      length frame = 20%nat ->
      frame !! 0%nat = Some x01 ->
      n = 4%nat \/ n = 7%nat ->
      decode_frame n frame tt w =
        (tt, w, Ret (mkSensors (VInt 1) n (take n (derived frame)) (take n unit_table)))) /\
  decode_frame 7 frame_example tt w0 =
    (tt, w0,
     Ret (mkSensors (VInt 1) 7
            [VFloat 0; VInt 100; VInt 0; VFloat 0; VFloat 1; VFloat 400; VFloat 1000]
            ["%rH"; "Bq/m3"; "Bq/m3"; "degC"; "hPa"; "ppm"; "ppb"])).
Proof.
  split.
  - intros n frame w Hlen H0 Hn.
    apply decode_frame_version_1; [exact Hlen | exact H0 | lia].
  - vm_compute. reflexivity.
Qed.

Lemma decode_frame_derivation_witness :
  decode_frame 4 frame_example tt w0 =
    (tt, w0, Ret (mkSensors (VInt 1) 4 (take 4 (derived frame_example)) (take 4 unit_table))).
Proof.
  apply (proj1 decode_frame_derivation 4%nat frame_example w0).
  - reflexivity.
  - reflexivity.
  - left. reflexivity.
Defined.

Lemma populated_replicate_None (n : nat) (v : pyval) (units : list string) :
  populated (mkSensors v n (replicate n VNone) units) = 0%nat.
Proof.
  unfold populated. simpl sensor_data.
  induction n as [| n IH]; [reflexivity | simpl; exact IH].
Qed.

(** C2, as stated, fails: a frame of 16 bytes is refused by
    [struct.unpack], which wants 20, before the version byte is looked at;
    nothing is printed and the exception is not SystemExit. *)
Lemma decode_frame_16_bytes :
  length frame_16 = 16%nat /\
  frame_16 !! 0%nat = Some x02 /\
  decode_frame 7 frame_16 tt w0 = (tt, w0, Raise StructError).
Proof.
  repeat split.
Qed.

(** C2, amended: for every 20-byte frame whose first byte is not 1,
    decoding prints the two lines about the unknown sensor version and
    exits with status 1 (SystemExit), whatever the rest of the frame holds,
    and no sensor field is populated. *)
Theorem decode_frame_unsupported_version
    (n : nat) (frame : list byte) (w : World) :
  length frame = 20%nat ->
  frame !! 0%nat <> Some x01 ->
  decode_frame n frame tt w =
    (tt,
     emit (Line ("GUIDE: Contact Airthings for support." ++ nl))
       (emit (Line ("ERROR: Unknown sensor version." ++ nl)) w),
     Raise (SystemExit 1)) /\
  exists (rawData : list Z) (self' : Sensors),
    unpack frame = Ret rawData /\
    Sensors_set rawData (Sensors_init n) w =
      (self',
       emit (Line ("GUIDE: Contact Airthings for support." ++ nl))
         (emit (Line ("ERROR: Unknown sensor version." ++ nl)) w),
       Raise (SystemExit 1)) /\
    sensor_data self' = replicate n VNone /\
    populated self' = 0%nat.
Proof.
  intros Hlen H0.
  destruct frame as [| b0 frame]; [discriminate Hlen |].
  assert (Hv : byte_int b0 <> 1).
  { intros E. apply byte_int_1 in E. subst b0. apply H0. reflexivity. }
  unfold decode_frame, bind, lift, unpack, on_local.
  rewrite Hlen. cbn [Nat.eqb].
  do 3 (destruct frame as [| ? frame]; [discriminate Hlen |]).
  cbn [take drop map app].
  rewrite Sensors_set_other_version by exact Hv.
  split; [reflexivity |].
  eexists _, _. split; [reflexivity |].
  rewrite Sensors_set_other_version by exact Hv.
  split; [reflexivity |]. split; [reflexivity |].
  apply populated_replicate_None.
Qed.

Lemma decode_frame_unsupported_version_witness :
  decode_frame 7 (x02 :: tail frame_example) tt w0 =
    (tt,
     emit (Line ("GUIDE: Contact Airthings for support." ++ nl))
       (emit (Line ("ERROR: Unknown sensor version." ++ nl)) w0),
     Raise (SystemExit 1)).
Proof.
  apply (decode_frame_unsupported_version 7 (x02 :: tail frame_example) w0).
  - reflexivity.
  - simpl. discriminate.
Defined.

(** ** The session: what the methods change *)

Ltac run_monad :=
  unfold print, sys_exit in *;
  unfold bind, get, ret, modify, lift, raise, transport_call, output,
    on_local, try_except in *.

Lemma set_MacAddr_same (self : WavePlus) : set_MacAddr (MacAddr self) self = self.
Proof. destruct self; reflexivity. Qed.

(** The for loop changes nothing but [MacAddr], and not the world. *)
Lemma connect_for_frame (devices : list ScanEntry) (self : WavePlus) (w : World) :
  exists (a : option string) (r : Res unit),
    connect_for devices self w = (set_MacAddr a self, w, r).
Proof.
  induction devices as [| dev rest IH]; simpl.
  - exists (MacAddr self), (Ret tt). rewrite set_MacAddr_same. reflexivity.
  - run_monad. destruct (parseSerialNumber (getValueText dev 255)) as [parsed | e].
    + destruct (eq_int parsed (SN self)).
      * exists (Some (addr dev)), (Ret tt). reflexivity.
      * exact IH.
    + exists (MacAddr self), (Raise e). rewrite set_MacAddr_same. reflexivity.
Qed.

(** The while loop changes nothing but [MacAddr], prints nothing, and makes
    at most [remaining] transport calls. *)
Lemma connect_while_frame (tr : Transport) (remaining : nat) :
  forall (self : WavePlus) (w : World),
  exists (a : option string) (w' : World) (r : Res unit),
    connect_while tr remaining self w = (set_MacAddr a self, w', r) /\
    stdout w' = stdout w /\
    (clock w <= clock w' <= clock w + remaining)%nat.
Proof.
  induction remaining as [| n IH]; intros self w; simpl.
  - exists (MacAddr self), w, (Ret tt). rewrite set_MacAddr_same.
    repeat split; lia.
  - run_monad. destruct (MacAddr self) eqn:EM.
    + exists (MacAddr self), w, (Ret tt). rewrite set_MacAddr_same.
      repeat split; lia.
    + destruct (scan_answer tr (clock w)) as [devices | e].
      * destruct (connect_for_frame devices self (tick w)) as (a & r & E).
        rewrite E. destruct r as [[] | e].
        -- destruct (IH (set_MacAddr a self) (tick w)) as (a' & w' & r' & E' & Hout & Hclock).
           rewrite E'. exists a', w', r'. simpl in Hclock.
           repeat split; [exact Hout | lia | lia].
        -- exists a, (tick w), (Raise e). simpl. repeat split; lia.
      * exists None, (tick w), (Raise e). rewrite <- EM, set_MacAddr_same. simpl.
        repeat split; lia.
Qed.

Lemma connect_discover_frame (tr : Transport) (self : WavePlus) (w : World) :
  exists (a : option string) (w' : World) (r : Res unit),
    connect_discover tr self w = (set_MacAddr a self, w', r) /\
    (clock w' <= clock w + 50)%nat.
Proof.
  unfold connect_discover. run_monad. destruct (MacAddr self) eqn:EM.
  - exists (MacAddr self), w, (Ret tt). rewrite set_MacAddr_same. split; [reflexivity | lia].
  - destruct (connect_while_frame tr 50 self w) as (a & w' & r & E & _ & Hclock).
    rewrite E. destruct r as [[] | e].
    + destruct a as [a |]; simpl.
      * exists (Some a), w', (Ret tt). split; [reflexivity | lia].
      * eexists None, _, _. split; [reflexivity | simpl; lia].
    + exists a, w', (Raise e). split; [reflexivity | lia].
Qed.

(** Connecting changes [periph] and [curr_val_char] only, and sets a
    characteristic only when a connection is held. *)
Lemma connect_device_frame (tr : Transport) (self : WavePlus) (w : World) :
  let self' := fst (fst (connect_device tr self w)) in
  MacAddr self' = MacAddr self /\ SN self' = SN self /\ uuid self' = uuid self /\
  numSensors self' = numSensors self /\
  (held_together self -> held_together self').
Proof.
  unfold connect_device, held_together. run_monad.
  destruct self as [p c a sn u n]; simpl.
  destruct p as [p |], c as [c |], a as [a |]; simpl;
    repeat match goal with
           | |- context [match Peripheral_answer ?t ?k ?x with _ => _ end] =>
               destruct (Peripheral_answer t k x); simpl
           | |- context [match getCharacteristics_answer ?t ?k ?x ?y with _ => _ end] =>
               destruct (getCharacteristics_answer t k x y) as [[| ? ?] | ?]; simpl
           | |- context [if is_Exception ?e then _ else _] =>
               destruct (is_Exception e); simpl
           end;
    repeat split; intros; simpl in *; auto; congruence.
Qed.

Lemma connect_invariant (tr : Transport) (self : WavePlus) (w : World) :
  let self' := fst (fst (connect tr self w)) in
  SN self' = SN self /\ uuid self' = uuid self /\ numSensors self' = numSensors self /\
  (held_together self -> held_together self').
Proof.
  unfold connect, bind.
  destruct (connect_discover_frame tr self w) as (a & w' & r & E & _).
  rewrite E. destruct r as [[] | e].
  - pose proof (connect_device_frame tr (set_MacAddr a self) w') as H.
    simpl in H. destruct H as (_ & HSN & Hu & Hn & Hh).
    repeat split; assumption.
  - simpl. repeat split; auto.
Qed.

Lemma decode_frame_state {St} (n : nat) (frame : list byte) (s : St) (w : World) :
  fst (fst (decode_frame n frame s w)) = s.
Proof.
  unfold decode_frame. run_monad.
  destruct (unpack frame) as [rawData | e]; [| reflexivity].
  destruct (Sensors_set rawData (Sensors_init n) w) as [[o w'] [[] | e]]; reflexivity.
Qed.

(** Reading changes nothing in the session. *)
Lemma read_state (tr : Transport) (self : WavePlus) (w : World) :
  fst (fst (read tr self w)) = self.
Proof.
  unfold read. run_monad.
  destruct (curr_val_char self) as [c |]; [| reflexivity].
  destruct (read_answer tr (clock w) c) as [rawdata | e]; [| reflexivity].
  apply decode_frame_state.
Qed.

Lemma disconnect_None (tr : Transport) (self : WavePlus) (w : World) :
  periph self = None -> disconnect tr self w = (self, w, Ret tt).
Proof.
  intros H. unfold disconnect. run_monad. rewrite H. reflexivity.
Qed.

Lemma disconnect_Some (tr : Transport) (self : WavePlus) (w : World) (p : Peripheral) :
  periph self = Some p ->
  disconnect tr self w =
    match disconnect_answer tr (clock w) p with
    | Ret _ => (set_curr_val_char None (set_periph None self), tick w, Ret tt)
    | Raise e => (self, tick w, Raise e)
    end.
Proof.
  intros H. unfold disconnect. run_monad. rewrite H.
  destruct (disconnect_answer tr (clock w) p) as [[] | e]; reflexivity.
Qed.

Lemma disconnect_invariant (tr : Transport) (self : WavePlus) (w : World) :
  let self' := fst (fst (disconnect tr self w)) in
  SN self' = SN self /\ uuid self' = uuid self /\ numSensors self' = numSensors self /\
  MacAddr self' = MacAddr self /\
  (held_together self -> held_together self').
Proof.
  destruct (periph self) as [p |] eqn:E.
  - rewrite (disconnect_Some tr self w p E).
    destruct (disconnect_answer tr (clock w) p); simpl; repeat split; auto.
  - rewrite (disconnect_None tr self w E). simpl. repeat split; auto.
Qed.

(** What holds in every state of a session. *)
Lemma reachable_invariant (tr : Transport) (sn : Z) (q : bool) (self : WavePlus) :
  reachable tr sn q self ->
  SN self = sn /\ numSensors self = (if q then 7%nat else 4%nat) /\ held_together self.
Proof.
  induction 1 as [| self w _ IH | self w _ IH | self w _ IH].
  - split; [reflexivity | split; [destruct q; reflexivity | intros _; reflexivity]].
  - destruct IH as (H1 & H2 & H3).
    destruct (connect_invariant tr self w) as (E1 & _ & E2 & E3).
    rewrite E1, E2. auto.
  - rewrite read_state. exact IH.
  - destruct IH as (H1 & H2 & H3).
    destruct (disconnect_invariant tr self w) as (E1 & _ & E2 & _ & E3).
    rewrite E1, E2. auto.
Qed.

(** ** disconnect *)

(** C8, as stated, fails: with a connection held, the transport's own
    disconnect call may raise; [disconnect] does not catch that, and the
    connection and the characteristic stay set. *)
Lemma disconnect_raises_with_transport :
  let self := fst (fst (connect tr_close_fails (WavePlus_init 1234567890 true) w0)) in
  let w := snd (fst (connect tr_close_fails (WavePlus_init 1234567890 true) w0)) in
  reachable tr_close_fails 1234567890 true self /\
  snd (connect tr_close_fails (WavePlus_init 1234567890 true) w0) = Ret tt /\
  disconnect tr_close_fails self w =
    (self, tick w, Raise (BTLEException "Helper not started (did you call connect()?)")) /\
  periph self = Some (mkPeripheral "80:6f:b0:aa:bb:cc") /\
  curr_val_char self = Some (mkCharacteristic "b42e2a68-ade7-11e4-89d3-123b93f75cba").
Proof.
  split; [apply reach_connect, reach_init |].
  repeat split; vm_compute; reflexivity.
Qed.

(** C8, amended: [disconnect] returns without raising when no connection
    is held, also when none was ever established; with a connection held it
    raises only what the transport's disconnect call raises, and then keeps
    its handles.  Whenever it returns, the connection is cleared, and so is
    the characteristic in every state a session reaches; a second call
    right after changes nothing. *)
Theorem disconnect_spec (tr : Transport) (self : WavePlus) (w : World) :
  (periph self = None -> disconnect tr self w = (self, w, Ret tt)) /\
  (forall (sn : Z) (q : bool),
      disconnect tr (WavePlus_init sn q) w = (WavePlus_init sn q, w, Ret tt)) /\
  (forall p : Peripheral,
      periph self = Some p ->
      disconnect tr self w =
        match disconnect_answer tr (clock w) p with
        | Ret _ => (set_curr_val_char None (set_periph None self), tick w, Ret tt)
        | Raise e => (self, tick w, Raise e)
        end) /\
  (forall (self' : WavePlus) (w' : World),
      disconnect tr self w = (self', w', Ret tt) ->
      periph self' = None /\
      disconnect tr self' w' = (self', w', Ret tt) /\
      (forall (sn : Z) (q : bool), reachable tr sn q self -> curr_val_char self' = None)).
Proof.
  split; [apply disconnect_None |].
  split; [intros sn q; apply disconnect_None; reflexivity |].
  split; [apply disconnect_Some |].
  intros self' w' H.
  assert (Hp : periph self' = None).
  { destruct (periph self) as [p |] eqn:E.
    - rewrite (disconnect_Some tr self w p E) in H.
      destruct (disconnect_answer tr (clock w) p); inversion H; reflexivity.
    - rewrite (disconnect_None tr self w E) in H. inversion H; subst. exact E. }
  split; [exact Hp |]. split; [apply disconnect_None; exact Hp |].
  intros sn q Hr.
  apply reachable_invariant in Hr. destruct Hr as (_ & _ & Hh).
  pose proof (disconnect_invariant tr self w) as (_ & _ & _ & _ & Hh').
  rewrite H in Hh'. simpl in Hh'. apply Hh'; assumption.
Qed.

Lemma disconnect_spec_witness :
  let self := fst (fst (connect tr_ok (WavePlus_init 1234567890 true) w0)) in
  let w := snd (fst (connect tr_ok (WavePlus_init 1234567890 true) w0)) in
  disconnect tr_ok (WavePlus_init 1234567890 true) w0
    = (WavePlus_init 1234567890 true, w0, Ret tt) /\
  disconnect tr_ok self w
    = (set_curr_val_char None (set_periph None self), tick w, Ret tt).
Proof.
  split.
  - apply (proj1 (disconnect_spec tr_ok (WavePlus_init 1234567890 true) w0)).
    reflexivity.
  - apply (proj1 (proj2 (proj2 (disconnect_spec tr_ok
             (fst (fst (connect tr_ok (WavePlus_init 1234567890 true) w0)))
             (snd (fst (connect tr_ok (WavePlus_init 1234567890 true) w0))))))
             (mkPeripheral "80:6f:b0:aa:bb:cc")).
    vm_compute. reflexivity.
Defined.

(** ** Readings *)

Lemma conv2radon_populated (radon_raw : Z) : is_populated (conv2radon radon_raw) = true.
Proof.
  unfold conv2radon. destruct ((0 <=? radon_raw) && (radon_raw <=? 16383)); reflexivity.
Qed.

Lemma populated_derived (n : nat) (v : pyval) (frame : list byte) (units : list string) :
  (n <= 7)%nat ->
  populated (mkSensors v n (take n (derived frame)) units) = n /\
  length (take n (derived frame)) = n.
Proof.
  intros Hn. unfold populated, derived. simpl sensor_data.
  do 8 (destruct n as [| n];
        [cbn [take List.filter is_populated length];
         rewrite ?conv2radon_populated; cbn [length]; split; reflexivity |]).
  lia.
Qed.

(** A frame that decodes is a 20-byte version-1 frame, and the reading is
    the one derived from it. *)
Lemma decode_frame_Ret {St} (n : nat) (frame : list byte) (s s' : St) (w w' : World)
    (sensors : Sensors) :
  (n <= 7)%nat ->
  decode_frame n frame s w = (s', w', Ret sensors) ->
  sensors = mkSensors (VInt 1) n (take n (derived frame)) (take n unit_table) /\
  length frame = 20%nat /\ frame !! 0%nat = Some x01.
Proof.
  intros Hn H.
  destruct (Nat.eqb_spec (length frame) 20) as [Hlen | Hlen].
  - destruct frame as [| b0 rest] eqn:Ef; [discriminate Hlen |].
    destruct (Z.eq_dec (byte_int b0) 1) as [E | E].
    + apply byte_int_1 in E. subst b0.
      rewrite decode_frame_version_1 in H by (assumption || reflexivity).
      inversion H; subst. repeat split; assumption.
    + exfalso.
      unfold decode_frame, bind, lift, unpack, on_local in H.
      rewrite Hlen in H. cbn [Nat.eqb] in H.
      do 3 (destruct rest as [| ? rest]; [discriminate Hlen |]).
      cbn [take drop map app] in H.
      rewrite Sensors_set_other_version in H by exact E.
      discriminate H.
  - exfalso. unfold decode_frame, bind, lift, unpack in H.
    destruct (Nat.eqb_spec (length frame) 20) as [| _]; [contradiction |].
    discriminate H.
Qed.

Lemma loop_body_reachable (tr : Transport) (args : Args) (sn : Z) (q : bool)
    (self : WavePlus) (w : World) :
  reachable tr sn q self -> reachable tr sn q (fst (fst (loop_body tr args self w))).
Proof.
  intros Hr. unfold loop_body, bind.
  pose proof (reach_connect tr sn q self w Hr) as H1.
  destruct (connect tr self w) as [[s1 w1] [[] | e1]]; [| exact H1].
  pose proof (reach_read tr sn q s1 w1 H1) as H2.
  destruct (read tr s1 w1) as [[s2 w2] [sensors | e2]]; [| exact H2].
  unfold getNumSensors, get, bind, ret, lift, output. simpl in H2.
  destruct (comprehension (formater sensors) (seq 0 (numSensors s2))) as [data | e3];
    [| exact H2].
  pose proof (reach_disconnect tr sn q s2 (emit (Row (not_plain args) data) w2) H2) as H3.
  destruct (disconnect tr s2 (emit (Row (not_plain args) data) w2))
    as [[s3 w3] [[] | e4]]; [| exact H3].
  unfold time_sleep. destruct (period args <? 0)%float; exact H3.
Qed.

Lemma while_True_reachable (tr : Transport) (args : Args) (sn : Z) (q : bool)
    (cycles : nat) :
  forall (self : WavePlus) (w : World),
    reachable tr sn q self ->
    reachable tr sn q (fst (fst (while_True tr args cycles self w))).
Proof.
  induction cycles as [| n IH]; intros self w Hr; [exact Hr |].
  simpl. unfold bind.
  pose proof (loop_body_reachable tr args sn q self w Hr) as H1.
  destruct (loop_body tr args self w) as [[s1 w1] [[] | e]]; [| exact H1].
  apply IH. exact H1.
Qed.

(** The session of the program is, after any number of rounds, in a state
    reached by method calls from its construction. *)
Lemma main_reachable (tr : Transport) (args : Args) (cycles : nat) :
  reachable tr (serial args) (hasAirQuality args) (fst (fst (main tr args cycles))).
Proof.
  unfold main, try_block, getNumSensors. run_monad.
  set (s0 := WavePlus_init (serial args) (hasAirQuality args)).
  assert (H0 : reachable tr (serial args) (hasAirQuality args) s0) by apply reach_init.
  assert (Hloop : forall w, reachable tr (serial args) (hasAirQuality args)
                    (fst (fst (match while_True tr args cycles s0 w with
                               | (self, w1, Ret _) => (self, w1, Running)
                               | (self, w1, Raise e) =>
                                   match except_finally tr e self w1 with
                                   | (self', w', Ret _) => (self', w', Terminated None)
                                   | (self', w', Raise e') => (self', w', Terminated (Some e'))
                                   end
                               end)))).
  { intros w.
    pose proof (while_True_reachable tr args _ _ cycles s0 w H0) as H1.
    destruct (while_True tr args cycles s0 w) as [[s1 w1] [[] | e]]; [exact H1 |].
    simpl in H1. unfold except_finally. run_monad.
    destruct (is_Exception e); simpl.
    - pose proof (reach_disconnect tr _ _ s1 (emit (Line "") (emit (StrOf e) w1)) H1) as H2.
      destruct (disconnect tr s1 (emit (Line "") (emit (StrOf e) w1)))
        as [[s2 w2] [[] | e2]]; exact H2.
    - pose proof (reach_disconnect tr _ _ s1 w1 H1) as H2.
      destruct (disconnect tr s1 w1) as [[s2 w2] [[] | e2]]; exact H2. }
  destruct (not_plain args); simpl; apply Hloop.
Qed.

(** C9: a reading produced by a successful decode has as many populated
    fields as the capability has sensors (4, or 7 with air quality) and the
    units of the fixed table cut to that count; this holds for every
    reading that [read] returns in any state the session reaches, so the
    count is the same for all readings of a process. *)
Theorem reading_field_count (q : bool) :
  let count := if q then 7%nat else 4%nat in
  (forall (frame : list byte) (w w' : World) (sensors : Sensors),
      decode_frame count frame tt w = (tt, w', Ret sensors) ->
      populated sensors = count /\
      length (sensor_data sensors) = count /\
      sensor_units sensors = take count unit_table) /\
  (forall (tr : Transport) (sn : Z) (self self' : WavePlus) (w w' : World)
          (sensors : Sensors),
      reachable tr sn q self ->
      read tr self w = (self', w', Ret sensors) ->
      populated sensors = count /\
      length (sensor_data sensors) = count /\
      sensor_units sensors = take count unit_table /\
      numSensors self' = count /\
      reachable tr sn q self').
Proof.
  intros count.
  assert (Hc : (count <= 7)%nat) by (unfold count; destruct q; lia).
  assert (Hdec : forall (St : Type) (s s' : St) (frame : list byte) (w w' : World)
                        (sensors : Sensors),
             decode_frame count frame s w = (s', w', Ret sensors) ->
             populated sensors = count /\
             length (sensor_data sensors) = count /\
             sensor_units sensors = take count unit_table).
  { intros St s s' frame w w' sensors H.
    apply decode_frame_Ret in H; [| exact Hc]. destruct H as (-> & _ & _).
    destruct (populated_derived count (VInt 1) frame (take count unit_table) Hc) as [H1 H2].
    repeat split; assumption. }
  split.
  - intros frame w w' sensors H. exact (Hdec _ _ _ _ _ _ _ H).
  - intros tr sn self self' w w' sensors Hr H.
    pose proof (reachable_invariant tr sn q self Hr) as (_ & Hn & _).
    pose proof (read_state tr self w) as Hs. rewrite H in Hs. simpl in Hs. subst self'.
    unfold read in H. run_monad.
    destruct (curr_val_char self) as [c |]; [| discriminate H].
    destruct (read_answer tr (clock w) c) as [rawdata | e]; [| discriminate H].
    rewrite Hn in H. fold count in H.
    destruct (Hdec _ _ _ _ _ _ _ H) as (H1 & H2 & H3).
    repeat split; assumption.
Qed.

Lemma reading_field_count_witness :
  let sensors :=
    mkSensors (VInt 1) 7 (take 7 (derived frame_example)) (take 7 unit_table) in
  let self := fst (fst (connect tr_ok (WavePlus_init 1234567890 false) w0)) in
  (populated sensors = 7%nat /\
   length (sensor_data sensors) = 7%nat /\
   sensor_units sensors = ["%rH"; "Bq/m3"; "Bq/m3"; "degC"; "hPa"; "ppm"; "ppb"]) /\
  exists reading : Sensors,
    read tr_ok self (mkWorld [] 3) = (self, mkWorld [] 4, Ret reading) /\
    populated reading = 4%nat /\
    length (sensor_data reading) = 4%nat /\
    sensor_units reading = ["%rH"; "Bq/m3"; "Bq/m3"; "degC"].
Proof.
  split.
  - apply (proj1 (reading_field_count true) frame_example w0 w0).
    vm_compute. reflexivity.
  - eexists. split; [vm_compute; reflexivity |].
    pose proof (proj2 (reading_field_count false) tr_ok 1234567890
                  (fst (fst (connect tr_ok (WavePlus_init 1234567890 false) w0)))
                  (fst (fst (connect tr_ok (WavePlus_init 1234567890 false) w0)))
                  (mkWorld [] 3) (mkWorld [] 4) _
                  (reach_connect _ _ _ _ _ (reach_init _ _ _))
                  ltac:(vm_compute; reflexivity)) as (H1 & H2 & H3 & _).
    split; [exact H1 | split; [exact H2 | exact H3]].
Defined.

(** ** Discovery *)

Lemma connect_for_pass (target : Z) (devices : list ScanEntry) (self : WavePlus) (w : World) :
  SN self = target ->
  Forall (passes target) devices ->
  connect_for devices self w = (self, w, Ret tt).
Proof.
  intros HSN H. induction H as [| dev rest (v & Hv & Hne) _ IH]; [reflexivity |].
  simpl. run_monad. rewrite Hv, HSN, Hne. exact IH.
Qed.

Lemma connect_for_answer (target : Z) (pre post : list ScanEntry) (dev : ScanEntry)
    (self : WavePlus) (w : World) :
  SN self = target ->
  Forall (passes target) pre ->
  answers target dev ->
  connect_for (pre ++ dev :: post) self w = (set_MacAddr (Some (addr dev)) self, w, Ret tt).
Proof.
  intros HSN H Hdev. induction H as [| d rest (v & Hv & Hne) _ IH]; simpl; run_monad.
  - rewrite Hdev, HSN. simpl. rewrite Z.eqb_refl. reflexivity.
  - rewrite Hv, HSN, Hne. exact IH.
Qed.

Lemma connect_while_stop (tr : Transport) (remaining : nat) (self : WavePlus) (w : World)
    (a : string) :
  MacAddr self = Some a -> connect_while tr remaining self w = (self, w, Ret tt).
Proof.
  intros H. destruct remaining; [reflexivity |]. simpl. run_monad. rewrite H. reflexivity.
Qed.

Lemma tick_clock (w : World) (n : nat) :
  mkWorld (stdout (tick w)) (clock (tick w) + n) = mkWorld (stdout w) (clock w + S n).
Proof. simpl. f_equal. lia. Qed.

Lemma bursts_pass_next (tr : Transport) (target : Z) (from count : nat) :
  bursts_pass tr target from (S count) ->
  (exists devices : list ScanEntry,
      scan_answer tr from = Ret devices /\ Forall (passes target) devices) /\
  bursts_pass tr target (S from) count.
Proof.
  intros H. split.
  - destruct (H 0%nat) as (devices & E & Hp); [lia |].
    rewrite Nat.add_0_r in E. exists devices. split; assumption.
  - intros j Hj. destruct (H (S j)) as (devices & E & Hp); [lia |].
    rewrite Nat.add_succ_r in E. exists devices. split; assumption.
Qed.

(** Bursts that all pass use up the budget and leave the address unset. *)
Lemma connect_while_pass (tr : Transport) (remaining : nat) :
  forall (self : WavePlus) (w : World),
    MacAddr self = None ->
    bursts_pass tr (SN self) (clock w) remaining ->
    connect_while tr remaining self w
      = (self, mkWorld (stdout w) (clock w + remaining), Ret tt).
Proof.
  induction remaining as [| n IH]; intros self w HM Hb.
  - simpl. unfold ret. destruct w. simpl. rewrite Nat.add_0_r. reflexivity.
  - apply bursts_pass_next in Hb. destruct Hb as ((devices & E & Hp) & Hb).
    simpl. run_monad. rewrite HM, E.
    rewrite (connect_for_pass (SN self)) by (reflexivity || assumption).
    rewrite IH by assumption. rewrite tick_clock. reflexivity.
Qed.

(** The first burst with an advertisement that answers sets the address to
    that of the first such advertisement, and the loop stops there. *)
Lemma connect_while_answer (tr : Transport) (k : nat) :
  forall (remaining : nat) (self : WavePlus) (w : World)
         (pre post : list ScanEntry) (dev : ScanEntry),
    (k < remaining)%nat ->
    MacAddr self = None ->
    bursts_pass tr (SN self) (clock w) k ->
    scan_answer tr (clock w + k) = Ret (pre ++ dev :: post) ->
    Forall (passes (SN self)) pre ->
    answers (SN self) dev ->
    connect_while tr remaining self w
      = (set_MacAddr (Some (addr dev)) self, mkWorld (stdout w) (clock w + S k), Ret tt).
Proof.
  induction k as [| k IH]; intros remaining self w pre post dev Hk HM Hb Hscan Hpre Hdev;
    (destruct remaining as [| n]; [lia |]); simpl; run_monad; rewrite HM.
  - rewrite Nat.add_0_r in Hscan. rewrite Hscan.
    rewrite (connect_for_answer (SN self)) by (reflexivity || assumption).
    rewrite (connect_while_stop tr n _ _ (addr dev)) by reflexivity.
    unfold tick. replace (clock w + 1)%nat with (S (clock w)) by lia. reflexivity.
  - apply bursts_pass_next in Hb. destruct Hb as ((devices & E & Hp) & Hb).
    rewrite E. rewrite (connect_for_pass (SN self)) by (reflexivity || assumption).
    rewrite (IH n self (tick w) pre post dev); try assumption; try lia.
    + rewrite tick_clock. reflexivity.
    + simpl. rewrite <- Nat.add_succ_r. exact Hscan.
Qed.

(** ** The loop of the program *)

Lemma main_started (tr : Transport) (args : Args) (cycles : nat) :
  main tr args cycles =
    match while_True tr args cycles
            (WavePlus_init (serial args) (hasAirQuality args)) (started args) with
    | (self, w, Ret _) => (self, w, Running)
    | (self, w, Raise e) => ended (except_finally tr e self w)
    end.
Proof.
  unfold main, try_block, started, ended, getNumSensors. run_monad.
  destruct (not_plain args); simpl;
    destruct (while_True tr args cycles _ _) as [[s1 w1] [[] | e]]; try reflexivity;
    destruct (except_finally tr e s1 w1) as [[s2 w2] [[] | e2]]; reflexivity.
Qed.

(** An exception that leaves the loop body leaves the loop. *)
Lemma while_True_raise (tr : Transport) (args : Args) (cycles : nat)
    (self self' : WavePlus) (w w' : World) (e : Exn) :
  loop_body tr args self w = (self', w', Raise e) ->
  while_True tr args (S cycles) self w = (self', w', Raise e).
Proof.
  intros H. simpl. unfold bind. rewrite H. reflexivity.
Qed.

Lemma loop_body_connect_raise (tr : Transport) (args : Args)
    (self self' : WavePlus) (w w' : World) (e : Exn) :
  connect tr self w = (self', w', Raise e) ->
  loop_body tr args self w = (self', w', Raise e).
Proof.
  intros H. unfold loop_body, bind. rewrite H. reflexivity.
Qed.

(** Rounds that complete are followed by the remaining rounds. *)
Lemma while_True_app (tr : Transport) (args : Args) (k m : nat) :
  forall (self self' : WavePlus) (w w' : World),
    while_True tr args k self w = (self', w', Ret tt) ->
    while_True tr args (k + m) self w = while_True tr args m self' w'.
Proof.
  induction k as [| k IH]; intros self self' w w' H.
  - simpl in H. unfold ret in H. inversion H; subst. reflexivity.
  - simpl in *. unfold bind in *.
    destruct (loop_body tr args self w) as [[s1 w1] [[] | e]]; [| discriminate H].
    apply IH. exact H.
Qed.

(** What the exception handling does with an exception of class Exception,
    and with one that is not. *)
Lemma except_finally_Exception (tr : Transport) (e : Exn) (self : WavePlus) (w : World) :
  is_Exception e = true ->
  except_finally tr e self w = disconnect tr self (emit (Line "") (emit (StrOf e) w)).
Proof.
  intros H. unfold except_finally. run_monad. rewrite H. simpl.
  destruct (disconnect tr self _) as [[s1 w1] [[] | e1]]; reflexivity.
Qed.

Lemma except_finally_other (tr : Transport) (e : Exn) (self : WavePlus) (w : World) :
  is_Exception e = false ->
  except_finally tr e self w =
    match disconnect tr self w with
    | (self', w', Ret _) => (self', w', Raise e)
    | r => r
    end.
Proof.
  intros H. unfold except_finally. run_monad. rewrite H. simpl.
  destruct (disconnect tr self w) as [[s1 w1] [[] | e1]]; reflexivity.
Qed.

(** C6, as stated, fails: the first burst yields the device's
    advertisement, whose parsed serial number is the target, but after an
    advertisement of one byte; [parseSerialNumber] raises IndexError on
    that one, which ends [connect] before the device is looked at, and no
    address is cached. *)
Lemma connect_aborts_on_short_advertisement :
  scan_answer tr_short_first 0 = Ret [short_adv; waveplus_adv] /\
  answers 1234567890 waveplus_adv /\
  connect tr_short_first (WavePlus_init 1234567890 true) w0
    = (WavePlus_init 1234567890 true, tick w0, Raise IndexError) /\
  MacAddr (fst (fst (connect tr_short_first (WavePlus_init 1234567890 true) w0))) = None /\
  main tr_short_first args_example 1
    = (WavePlus_init 1234567890 true,
       mkWorld (stdout (started args_example) ++ [StrOf IndexError; Line ""]) 1,
       Terminated None).
Proof.
  repeat split; vm_compute; reflexivity.
Qed.

(** C6, amended: with no address cached, [connect] makes at most 50 scan
    bursts and applies [parseSerialNumber] to the advertisements in turn.  If
    one of the first 50 bursts yields an advertisement whose parsed serial
    number is the target, and [parseSerialNumber] returns (does not raise)
    for every advertisement before it, [connect] caches that device's
    address and goes on to connect to it.  If 50 bursts complete with
    advertisements that all parse and do not match, it prints the four
    lines and raises SystemExit(1), which no handler of the program catches:
    the process ends with it. *)
Theorem connect_discovery (tr : Transport) :
  (forall (self : WavePlus) (w : World),
      MacAddr self = None ->
      (exists (self' : WavePlus) (w' : World) (r : Res unit),
          connect_discover tr self w = (self', w', r) /\
          (clock w' <= clock w + 50)%nat) /\
      (forall (k : nat) (pre post : list ScanEntry) (dev : ScanEntry),
          (k < 50)%nat ->
          bursts_pass tr (SN self) (clock w) k ->
          scan_answer tr (clock w + k) = Ret (pre ++ dev :: post) ->
          Forall (passes (SN self)) pre ->
          answers (SN self) dev ->
          connect_discover tr self w
            = (set_MacAddr (Some (addr dev)) self,
               mkWorld (stdout w) (clock w + S k), Ret tt) /\
          connect tr self w
            = connect_device tr (set_MacAddr (Some (addr dev)) self)
                (mkWorld (stdout w) (clock w + S k))) /\
      (bursts_pass tr (SN self) (clock w) 50 ->
       connect tr self w
         = (self, mkWorld (stdout w ++ not_found) (clock w + 50), Raise (SystemExit 1)))) /\
  (forall (args : Args) (cycles : nat),
      bursts_pass tr (serial args) 0 50 ->
      main tr args (S cycles)
        = (WavePlus_init (serial args) (hasAirQuality args),
           mkWorld (stdout (started args) ++ not_found) 50,
           Terminated (Some (SystemExit 1)))).
Proof.
  assert (Hnone : forall (self : WavePlus) (w : World),
             MacAddr self = None ->
             bursts_pass tr (SN self) (clock w) 50 ->
             connect tr self w
               = (self, mkWorld (stdout w ++ not_found) (clock w + 50),
                  Raise (SystemExit 1))).
  { intros self w HM Hb. unfold connect, connect_discover. run_monad. rewrite HM.
    rewrite connect_while_pass by assumption. rewrite HM.
    unfold emit, not_found. cbn [stdout clock].
    rewrite <- !app_assoc. reflexivity. }
  split.
  - intros self w HM. split; [| split].
    + destruct (connect_discover_frame tr self w) as (a & w' & r & E & Hc).
      exists (set_MacAddr a self), w', r. split; assumption.
    + intros k pre post dev Hk Hb Hscan Hpre Hdev.
      assert (E : connect_discover tr self w
                  = (set_MacAddr (Some (addr dev)) self,
                     mkWorld (stdout w) (clock w + S k), Ret tt)).
      { unfold connect_discover. run_monad. rewrite HM.
        rewrite (connect_while_answer tr k 50 self w pre post dev) by assumption.
        reflexivity. }
      split; [exact E |]. unfold connect, bind. rewrite E. reflexivity.
    + apply Hnone. exact HM.
  - intros args cycles Hb. rewrite main_started.
    rewrite (while_True_raise tr args cycles _
               (WavePlus_init (serial args) (hasAirQuality args)) _
               (mkWorld (stdout (started args) ++ not_found) 50) (SystemExit 1)).
    + rewrite except_finally_other by reflexivity.
      rewrite disconnect_None by reflexivity. reflexivity.
    + apply loop_body_connect_raise. rewrite Hnone; [reflexivity | reflexivity | exact Hb].
Qed.

Lemma connect_discovery_witness :
  connect_discover tr_40th (WavePlus_init 1234567890 true) w0
    = (set_MacAddr (Some "80:6f:b0:aa:bb:cc") (WavePlus_init 1234567890 true),
       mkWorld [] 40, Ret tt) /\
  main tr_absent args_example 1
    = (WavePlus_init 1234567890 true,
       mkWorld (stdout (started args_example) ++ not_found) 50,
       Terminated (Some (SystemExit 1))).
Proof.
  split.
  - apply (proj1 (proj2 (proj1 (connect_discovery tr_40th)
                           (WavePlus_init 1234567890 true) w0 eq_refl))
             39%nat [other_adv; bare_adv] [] waveplus_adv).
    + lia.
    + intros j Hj. exists [other_adv; bare_adv; other_adv]. split.
      * simpl. destruct (Nat.eqb_spec j 39); [lia | reflexivity].
      * repeat constructor; eexists; split; vm_compute; reflexivity.
    + reflexivity.
    + repeat constructor; eexists; split; vm_compute; reflexivity.
    + reflexivity.
  - apply (proj2 (connect_discovery tr_absent) args_example 0%nat).
    intros j Hj. exists [other_adv; bare_adv]. split.
    + reflexivity.
    + repeat constructor; eexists; split; vm_compute; reflexivity.
Defined.

(** ** A failed connection *)

(** With an address cached, [connect] does not scan. *)
Lemma connect_cached (tr : Transport) (self : WavePlus) (w : World) (a : string) :
  MacAddr self = Some a -> connect tr self w = connect_device tr self w.
Proof.
  intros H. unfold connect, connect_discover. run_monad. rewrite H. reflexivity.
Qed.

(** C7, as stated, fails: the device is found by the first scan and the
    connection is refused once; [connect] raises its "Failed to connect"
    exception, the handler around the loop prints it, and the program ends
    after two transport calls and without a reading, although the next
    [connect] would have succeeded. *)
Lemma connection_failure_ends_program :
  let self := set_MacAddr (Some "80:6f:b0:aa:bb:cc") (WavePlus_init 1234567890 true) in
  let w := mkWorld (stdout (started args_example)) 2 in
  connect tr_refuse_once (WavePlus_init 1234567890 true) (started args_example)
    = (self, w, Raise (Exception connect_failed)) /\
  main tr_refuse_once args_example 3
    = (self,
       mkWorld (stdout (started args_example)
                ++ [StrOf (Exception connect_failed); Line ""]) 2,
       Terminated None) /\
  snd (connect tr_refuse_once self w) = Ret tt.
Proof.
  repeat split; vm_compute; reflexivity.
Qed.

(** C7, amended: an exception that leaves a round of the loop, recoverable
    or fatal, ends the loop: no later round runs.  When [connect] raises its
    "Failed to connect" exception, the handler prints it and an empty line,
    [disconnect] is called, and the program ends; the session keeps the
    address it had cached, and a [connect] on a session with a cached
    address does not scan.  For an exception the handler does not catch
    (SystemExit), [disconnect] is called and the exception ends the
    process. *)
Theorem connect_failure_ends_loop
    (tr : Transport) (args : Args) (k m : nat) (self : WavePlus) (w : World) :
  while_True tr args k (WavePlus_init (serial args) (hasAirQuality args)) (started args)
    = (self, w, Ret tt) ->
  (forall (self1 : WavePlus) (w1 : World) (e : Exn),
      loop_body tr args self w = (self1, w1, Raise e) ->
      main tr args (k + S m) = ended (except_finally tr e self1 w1) /\
      (is_Exception e = true ->
       except_finally tr e self1 w1
         = disconnect tr self1 (emit (Line "") (emit (StrOf e) w1))) /\
      (is_Exception e = false ->
       except_finally tr e self1 w1
         = match disconnect tr self1 w1 with
           | (self', w', Ret _) => (self', w', Raise e)
           | r => r
           end)) /\
  (forall (self1 : WavePlus) (w1 : World),
      connect tr self w = (self1, w1, Raise (Exception connect_failed)) ->
      main tr args (k + S m)
        = ended (disconnect tr self1
                   (emit (Line "") (emit (StrOf (Exception connect_failed)) w1))) /\
      (forall a : string, MacAddr self = Some a -> MacAddr self1 = Some a)) /\
  (forall (a : string) (self2 : WavePlus) (w2 : World),
      MacAddr self2 = Some a -> connect tr self2 w2 = connect_device tr self2 w2).
Proof.
  intros Hk.
  assert (Hany : forall (self1 : WavePlus) (w1 : World) (e : Exn),
             loop_body tr args self w = (self1, w1, Raise e) ->
             main tr args (k + S m) = ended (except_finally tr e self1 w1)).
  { intros self1 w1 e H. rewrite main_started.
    rewrite (while_True_app tr args k (S m) _ self _ w Hk).
    rewrite (while_True_raise tr args m self self1 w w1 e H). reflexivity. }
  split; [| split].
  - intros self1 w1 e H. split; [apply Hany; exact H |]. split.
    + apply except_finally_Exception.
    + apply except_finally_other.
  - intros self1 w1 H. split.
    + rewrite (Hany self1 w1 (Exception connect_failed)).
      * rewrite except_finally_Exception by reflexivity. reflexivity.
      * apply loop_body_connect_raise. exact H.
    + intros a Ha. rewrite (connect_cached tr self w a Ha) in H.
      pose proof (connect_device_frame tr self w) as (HM & _).
      rewrite H in HM. simpl in HM. rewrite HM. exact Ha.
  - intros a self2 w2. apply connect_cached.
Qed.

Lemma connect_failure_ends_loop_witness :
  main tr_refuse_once args_example (0 + 3)
    = ended (disconnect tr_refuse_once
               (set_MacAddr (Some "80:6f:b0:aa:bb:cc") (WavePlus_init 1234567890 true))
               (emit (Line "")
                  (emit (StrOf (Exception connect_failed))
                     (mkWorld (stdout (started args_example)) 2)))).
Proof.
  apply (proj1 (proj2 (connect_failure_ends_loop tr_refuse_once args_example 0 2
                         (WavePlus_init 1234567890 true) (started args_example)
                         eq_refl))
           (set_MacAddr (Some "80:6f:b0:aa:bb:cc") (WavePlus_init 1234567890 true))
           (mkWorld (stdout (started args_example)) 2)).
  vm_compute. reflexivity.
Defined.

(** * Further properties *)

(** ** parseSerialNumber: round trip and outcomes *)

Lemma byte_int_of_Z (z : Z) : 0 <= z < 256 -> byte_int (byte_of_Z z) = z.
Proof.
  intros H. unfold byte_of_Z, byte_int.
  destruct (Byte.of_N (Z.to_N z)) as [b |] eqn:E.
  - apply Byte.to_of_N in E. rewrite E. lia.
  - apply Byte.of_N_None_iff in E. lia.
Qed.

Lemma le_uint_le_bytes (count : nat) :
  forall n : Z, 0 <= n < 256 ^ Z.of_nat count -> le_uint (le_bytes count n) = n.
Proof.
  induction count as [| c IH]; intros n H.
  - simpl in *. lia.
  - rewrite Nat2Z.inj_succ, Z.pow_succ_r in H by lia.
    cbn [le_bytes le_uint].
    rewrite byte_int_of_Z by (apply Z.mod_pos_bound; lia).
    rewrite IH.
    + pose proof (Z.div_mod n 256). lia.
    + split; [apply Z.div_pos; lia | apply Z.div_lt_upper_bound; lia].
Qed.

Lemma length_le_bytes (count : nat) (n : Z) : length (le_bytes count n) = count.
Proof.
  revert n. induction count as [| c IH]; intros n; [reflexivity |].
  cbn [le_bytes length]. rewrite IH. reflexivity.
Qed.

Lemma manufacturer_data_bytes (serial : Z) :
  0 <= serial < 2 ^ 32 ->
  exists b2 b3 b4 b5 : byte,
    manufacturer_data serial = [x34; x03; b2; b3; b4; b5] /\
    le_uint [b2; b3; b4; b5] = serial.
Proof.
  intros H. unfold manufacturer_data.
  change (le_bytes 2 820) with [x34; x03].
  pose proof (le_uint_le_bytes 4 serial H) as E.
  pose proof (length_le_bytes 4 serial) as L.
  destruct (le_bytes 4 serial) as [| b2 [| b3 [| b4 [| b5 [| ? ?]]]]]; try discriminate L.
  exists b2, b3, b4, b5. split; [reflexivity | exact E].
Qed.

(** X1: the serial number of a device is read back from what the device
    advertises, whatever bytes follow the serial number. *)
Theorem parseSerialNumber_round_trip (serial : Z) (rest : list byte) :
  0 <= serial < 2 ^ 32 ->
  parseSerialNumber (Some (hexlify (manufacturer_data serial ++ rest)))
    = Ret (VInt serial).
Proof.
  intros H.
  rewrite (parseSerialNumber_bytes _ _ (fromhex_hexlify _)).
  destruct (manufacturer_data_bytes serial H) as (b2 & b3 & b4 & b5 & -> & E).
  cbn [app]. change (byte_int x34 + 256 * byte_int x03 =? 820) with true.
  cbv iota. rewrite E. reflexivity.
Qed.

Lemma parseSerialNumber_round_trip_witness :
  parseSerialNumber (Some (hexlify (manufacturer_data 2930012345 ++ [xff; x01])))
    = Ret (VInt 2930012345).
Proof.
  apply (parseSerialNumber_round_trip 2930012345 [xff; x01]). lia.
Defined.

(** X2: [parseSerialNumber] returns the str "Unknown" or an int from 0 to
    2^32 - 1, or raises IndexError or ValueError, and nothing else; so a
    target serial number outside that range is matched by no
    advertisement. *)
Theorem parseSerialNumber_outcomes (ManuDataHexStr : option string) :
  match parseSerialNumber ManuDataHexStr with
  | Ret v =>
      (v = Unknown \/ exists n : Z, v = VInt n /\ 0 <= n < 2 ^ 32) /\
      (forall target : Z, eq_int v target = true -> 0 <= target < 2 ^ 32)
  | Raise e => e = IndexError \/ e = ValueError
  end.
Proof.
  assert (HU : (Unknown = Unknown \/ exists n : Z, Unknown = VInt n /\ 0 <= n < 2 ^ 32) /\
               (forall target : Z, eq_int Unknown target = true -> 0 <= target < 2 ^ 32)).
  { split; [left; reflexivity | intros target H; discriminate H]. }
  destruct ManuDataHexStr as [text |]; [| exact HU].
  destruct (fromhex text) as [bs | e] eqn:E.
  - rewrite (parseSerialNumber_bytes text bs E).
    destruct bs as [| b0 [| b1 rest]]; try (left; reflexivity).
    destruct (byte_int b0 + 256 * byte_int b1 =? 820); [| exact HU].
    destruct rest as [| b2 [| b3 [| b4 [| b5 rest]]]]; try (left; reflexivity).
    pose proof (le_uint_range [b2; b3; b4; b5]) as R.
    change (256 ^ Z.of_nat (length [b2; b3; b4; b5])) with (2 ^ 32) in R.
    split.
    + right. eexists. split; [reflexivity | exact R].
    + intros target H. simpl in H. apply Z.eqb_eq in H. subst target. exact R.
  - unfold parseSerialNumber. destruct (String.eqb text "None"); [exact HU |].
    rewrite E. simpl. right.
    apply (fromhex_raises (String.length text) text e); [lia | exact E].
Qed.

(** ** connect: what it leaves behind *)

Lemma connect_device_outcome (tr : Transport) (self : WavePlus) (w : World) :
  let '(self', w', r) := connect_device tr self w in
  MacAddr self' = MacAddr self /\
  stdout w' = stdout w /\
  (clock w <= clock w' <= clock w + 2)%nat /\
  match r with
  | Ret _ => is_Some (periph self') /\ is_Some (curr_val_char self')
  | Raise e => e = Exception connect_failed \/ is_Exception e = false
  end.
Proof.
  unfold connect_device. run_monad.
  destruct self as [p c a sn u n]; simpl.
  destruct p as [p |], c as [c |], a as [a |]; simpl;
    repeat match goal with
           | |- context [match Peripheral_answer ?t ?k ?x with _ => _ end] =>
               destruct (Peripheral_answer t k x); simpl
           | |- context [match getCharacteristics_answer ?t ?k ?x ?y with _ => _ end] =>
               destruct (getCharacteristics_answer t k x y) as [[| ? ?] | ?]; simpl
           | |- context [if is_Exception ?e then _ else _] =>
               destruct (is_Exception e) eqn:?; simpl
           end;
    repeat split; eauto; lia.
Qed.

Lemma connect_discover_Ret (tr : Transport) (self self' : WavePlus) (w w' : World) :
  connect_discover tr self w = (self', w', Ret tt) ->
  is_Some (MacAddr self').
Proof.
  unfold connect_discover. run_monad. destruct (MacAddr self) as [a |] eqn:EM.
  - intros H. inversion H; subst. rewrite EM. eauto.
  - destruct (connect_while_frame tr 50 self w) as (a & w1 & r & E & _).
    rewrite E. destruct r as [[] | e]; [| discriminate].
    destruct a as [a |]; simpl; [| discriminate].
    intros H. inversion H; subst. simpl. eauto.
Qed.

(** X3: when [connect] returns, the session has an address, a connection
    and a characteristic, so that a [read] can follow. *)
Theorem connect_Ret (tr : Transport) (self self' : WavePlus) (w w' : World) :
  connect tr self w = (self', w', Ret tt) ->
  is_Some (MacAddr self') /\ is_Some (periph self') /\ is_Some (curr_val_char self').
Proof.
  unfold connect, bind.
  destruct (connect_discover tr self w) as [[s1 w1] [[] | e]] eqn:E; [| discriminate].
  apply connect_discover_Ret in E.
  pose proof (connect_device_outcome tr s1 w1) as H.
  destruct (connect_device tr s1 w1) as [[s2 w2] r]. destruct H as (HM & _ & _ & Hr).
  intros H. inversion H; subst. destruct Hr as [Hp Hc].
  rewrite HM. auto.
Qed.

Lemma connect_Ret_witness :
  let self := fst (fst (connect tr_ok (WavePlus_init 1234567890 true) w0)) in
  is_Some (MacAddr self) /\ is_Some (periph self) /\ is_Some (curr_val_char self).
Proof.
  apply (connect_Ret tr_ok (WavePlus_init 1234567890 true)
           (fst (fst (connect tr_ok (WavePlus_init 1234567890 true) w0)))
           w0 (mkWorld [] 3)).
  vm_compute. reflexivity.
Defined.

(** X4: on a session that is connected, [connect] does nothing: no transport
    call, no output, no change. *)
Theorem connect_connected (tr : Transport) (self : WavePlus) (w : World) :
  is_Some (MacAddr self) -> is_Some (periph self) -> is_Some (curr_val_char self) ->
  connect tr self w = (self, w, Ret tt).
Proof.
  intros [a Ha] [p Hp] [c Hc].
  unfold connect, connect_discover, connect_device. run_monad.
  rewrite Ha, Hp, Hc. reflexivity.
Qed.

Lemma connect_connected_witness :
  let self := fst (fst (connect tr_ok (WavePlus_init 1234567890 true) w0)) in
  connect tr_absent self (mkWorld [] 3) = (self, mkWorld [] 3, Ret tt).
Proof.
  apply (connect_connected tr_absent
           (fst (fst (connect tr_ok (WavePlus_init 1234567890 true) w0)))
           (mkWorld [] 3)); vm_compute; eauto.
Defined.

(** X5: an address, once cached, is kept by every method and through the
    whole loop; with it, [connect] makes at most two transport calls (it
    does not scan), prints nothing, and lets no exception of class
    Exception out other than its own "Failed to connect". *)
Theorem cached_address_kept (tr : Transport) (args : Args) (self : WavePlus) (w : World)
    (a : string) :
  MacAddr self = Some a ->
  MacAddr (fst (fst (connect tr self w))) = Some a /\
  MacAddr (fst (fst (read tr self w))) = Some a /\
  MacAddr (fst (fst (disconnect tr self w))) = Some a /\
  (forall cycles : nat,
      MacAddr (fst (fst (while_True tr args cycles self w))) = Some a) /\
  (let '(_, w', r) := connect tr self w in
   stdout w' = stdout w /\
   (clock w' <= clock w + 2)%nat /\
   forall e : Exn, r = Raise e -> e = Exception connect_failed \/ is_Exception e = false).
Proof.
  intros Ha.
  assert (Hconnect : forall (s : WavePlus) (w1 : World),
             MacAddr s = Some a -> MacAddr (fst (fst (connect tr s w1))) = Some a).
  { intros s w1 Hs. rewrite (connect_cached tr s w1 a Hs).
    pose proof (connect_device_frame tr s w1) as (HM & _). rewrite HM. exact Hs. }
  assert (Hdisconnect : forall (s : WavePlus) (w1 : World),
             MacAddr s = Some a -> MacAddr (fst (fst (disconnect tr s w1))) = Some a).
  { intros s w1 Hs.
    pose proof (disconnect_invariant tr s w1) as (_ & _ & _ & HM & _).
    rewrite HM. exact Hs. }
  split; [apply Hconnect; exact Ha |].
  split; [rewrite read_state; exact Ha |].
  split; [apply Hdisconnect; exact Ha |].
  split.
  - intros cycles. revert self w Ha.
    induction cycles as [| n IH]; intros self w Ha; [exact Ha |].
    simpl. unfold bind.
    assert (Hbody : MacAddr (fst (fst (loop_body tr args self w))) = Some a).
    { unfold loop_body, bind.
      pose proof (Hconnect self w Ha) as H1.
      destruct (connect tr self w) as [[s1 w1] [[] | e1]]; [| exact H1].
      simpl in H1. pose proof (read_state tr s1 w1) as H2.
      destruct (read tr s1 w1) as [[s2 w2] [sensors | e2]]; simpl in H2; subst s2;
        [| exact H1].
      unfold getNumSensors, get, bind, ret, lift, output.
      destruct (comprehension (formater sensors) (seq 0 (numSensors s1))) as [data | e3];
        [| exact H1].
      pose proof (Hdisconnect s1 (emit (Row (not_plain args) data) w2) H1) as H3.
      destruct (disconnect tr s1 (emit (Row (not_plain args) data) w2))
        as [[s3 w3] [[] | e4]]; [| exact H3].
      unfold time_sleep. destruct (period args <? 0)%float; exact H3. }
    destruct (loop_body tr args self w) as [[s1 w1] [[] | e]]; [| exact Hbody].
    apply IH. exact Hbody.
  - rewrite (connect_cached tr self w a Ha).
    pose proof (connect_device_outcome tr self w) as H.
    destruct (connect_device tr self w) as [[s1 w1] r].
    destruct H as (_ & Hout & Hclock & Hr).
    split; [exact Hout |]. split; [lia |].
    intros e ->. exact Hr.
Qed.

Lemma cached_address_kept_witness :
  let self := set_MacAddr (Some "80:6f:b0:aa:bb:cc") (WavePlus_init 1234567890 true) in
  MacAddr (fst (fst (connect tr_refuse_once self (mkWorld [] 1)))) = Some "80:6f:b0:aa:bb:cc".
Proof.
  apply (proj1 (cached_address_kept tr_refuse_once args_example
                  (set_MacAddr (Some "80:6f:b0:aa:bb:cc") (WavePlus_init 1234567890 true))
                  (mkWorld [] 1) "80:6f:b0:aa:bb:cc" eq_refl)).
Defined.

(** ** read and the decoding: outcomes *)

Lemma decode_frame_wrong_length {St} (n : nat) (frame : list byte) (s : St) (w : World) :
  length frame <> 20%nat -> decode_frame n frame s w = (s, w, Raise StructError).
Proof.
  intros H. unfold decode_frame, bind, lift, unpack.
  destruct (Nat.eqb_spec (length frame) 20) as [| _]; [contradiction | reflexivity].
Qed.

Lemma decode_frame_other_version {St} (n : nat) (frame : list byte) (s : St) (w : World) :
  length frame = 20%nat ->
  byte_at frame 0 <> 1 ->
  decode_frame n frame s w =
    (s,
     emit (Line ("GUIDE: Contact Airthings for support." ++ nl))
       (emit (Line ("ERROR: Unknown sensor version." ++ nl)) w),
     Raise (SystemExit 1)).
Proof.
  intros Hlen Hv.
  do 4 (destruct frame as [| ? frame]; [discriminate Hlen |]).
  unfold decode_frame, bind, lift, unpack, on_local.
  rewrite Hlen. cbn [Nat.eqb take drop map app].
  rewrite Sensors_set_other_version by exact Hv.
  reflexivity.
Qed.

(** X6: [read] on a session without a characteristic prints its error and
    exits with status 1, without a transport call.  With one it makes
    exactly one transport call, leaves the session as it is, and: passes on
    what the transport raises; raises [struct.error] on a frame that is not
    20 bytes long; prints the two lines and exits with status 1 on a frame
    whose first byte is not 1; returns the reading otherwise. *)
Theorem read_outcomes (tr : Transport) (self : WavePlus) (w : World) :
  (numSensors self <= 7)%nat ->
  read tr self w =
    match curr_val_char self with
    | None =>
        (self, emit (Line "ERROR: Devices are not connected.") w, Raise (SystemExit 1))
    | Some c =>
        match read_answer tr (clock w) c with
        | Raise e => (self, tick w, Raise e)
        | Ret rawdata =>
            if negb (length rawdata =? 20)%nat then (self, tick w, Raise StructError)
            else if byte_at rawdata 0 =? 1 then
              (self, tick w,
               Ret (mkSensors (VInt 1) (numSensors self)
                      (take (numSensors self) (derived rawdata))
                      (take (numSensors self) unit_table)))
            else
              (self,
               emit (Line ("GUIDE: Contact Airthings for support." ++ nl))
                 (emit (Line ("ERROR: Unknown sensor version." ++ nl)) (tick w)),
               Raise (SystemExit 1))
        end
    end.
Proof.
  intros Hn. unfold read. run_monad.
  destruct (curr_val_char self) as [c |]; [| reflexivity].
  destruct (read_answer tr (clock w) c) as [rawdata | e]; [| reflexivity].
  destruct (Nat.eqb_spec (length rawdata) 20) as [Hlen | Hlen]; cbn [negb].
  - destruct (Z.eqb_spec (byte_at rawdata 0) 1) as [E | E].
    + apply decode_frame_version_1; [exact Hlen | | exact Hn].
      destruct rawdata as [| b0 rest]; [discriminate Hlen |].
      unfold byte_at in E. simpl in E. apply byte_int_1 in E. subst b0. reflexivity.
    + apply decode_frame_other_version; assumption.
  - apply decode_frame_wrong_length. exact Hlen.
Qed.

Lemma read_outcomes_witness :
  read tr_ok (WavePlus_init 1234567890 true) w0
    = (WavePlus_init 1234567890 true,
       emit (Line "ERROR: Devices are not connected.") w0, Raise (SystemExit 1)).
Proof.
  apply (read_outcomes tr_ok (WavePlus_init 1234567890 true) w0).
  simpl. lia.
Defined.

(** X7: the second and third reserved bytes and the last two words of a
    frame (bytes 2, 3 and 16 to 19) have no influence on the decoding. *)
Theorem decode_frame_ignores (n : nat) (frame1 frame2 : list byte) (w : World) :
  length frame1 = 20%nat ->
  length frame2 = 20%nat ->
  (forall i : nat, ~ In i [2; 3; 16; 17; 18; 19]%nat -> frame1 !! i = frame2 !! i) ->
  decode_frame n frame1 tt w = decode_frame n frame2 tt w.
Proof.
  intros H1 H2 H.
  do 20 (destruct frame1 as [| ? frame1]; [discriminate H1 |]).
  destruct frame1; [| discriminate H1].
  do 20 (destruct frame2 as [| ? frame2]; [discriminate H2 |]).
  destruct frame2; [| discriminate H2].
  pose proof (H 0%nat ltac:(simpl; lia)) as E0.
  pose proof (H 1%nat ltac:(simpl; lia)) as E1.
  pose proof (H 4%nat ltac:(simpl; lia)) as E4.
  pose proof (H 5%nat ltac:(simpl; lia)) as E5.
  pose proof (H 6%nat ltac:(simpl; lia)) as E6.
  pose proof (H 7%nat ltac:(simpl; lia)) as E7.
  pose proof (H 8%nat ltac:(simpl; lia)) as E8.
  pose proof (H 9%nat ltac:(simpl; lia)) as E9.
  pose proof (H 10%nat ltac:(simpl; lia)) as E10.
  pose proof (H 11%nat ltac:(simpl; lia)) as E11.
  pose proof (H 12%nat ltac:(simpl; lia)) as E12.
  pose proof (H 13%nat ltac:(simpl; lia)) as E13.
  pose proof (H 14%nat ltac:(simpl; lia)) as E14.
  pose proof (H 15%nat ltac:(simpl; lia)) as E15.
  clear H. simpl in *.
  injection E0 as ->. injection E1 as ->. injection E4 as ->. injection E5 as ->.
  injection E6 as ->. injection E7 as ->. injection E8 as ->. injection E9 as ->.
  injection E10 as ->. injection E11 as ->. injection E12 as ->. injection E13 as ->.
  injection E14 as ->. injection E15 as ->.
  unfold decode_frame, bind, lift, unpack, on_local.
  cbn [length Nat.eqb take drop map app unpack_H].
  unfold Sensors_set, bind, lift, getitem.
  cbn [lookup list_lookup].
  reflexivity.
Qed.

Lemma decode_frame_ignores_witness :
  decode_frame 7 frame_example tt w0
    = decode_frame 7
        ([x01; x00; xaa; xbb] ++ take 12 (drop 4 frame_example) ++ [x01; x02; x03; x04])
        tt w0.
Proof.
  apply (decode_frame_ignores 7 frame_example
           ([x01; x00; xaa; xbb] ++ take 12 (drop 4 frame_example) ++ [x01; x02; x03; x04])
           w0).
  - reflexivity.
  - reflexivity.
  - intros i Hi.
    do 20 (destruct i as [| i]; [first [reflexivity | exfalso; apply Hi; simpl; lia] |]).
    reflexivity.
Defined.



Lemma conv2radon_shape (radon_raw : Z) :
  conv2radon radon_raw = VStr "N/A" \/
  exists z : Z, conv2radon radon_raw = VInt z /\ 0 <= z <= 16383.
Proof.
  unfold conv2radon.
  destruct (Z.leb_spec 0 radon_raw), (Z.leb_spec radon_raw 16383); simpl; auto.
  right. exists radon_raw. split; [reflexivity | lia].
Qed.

Lemma getitem_out_of_range {A} (l : list A) (i : nat) :
  (length l <= i)%nat -> getitem l i = Raise IndexError.
Proof.
  intros H. unfold getitem. rewrite (lookup_ge_None_2 l i H). reflexivity.
Qed.

(** X9: in a reading of [n] sensors, every index below [n] has a value and
    the unit of the table; the two radon averages are the str "N/A" or an
    int from 0 to 16383, the other values are floats; [getValue] and
    [getUnit] raise IndexError from index [n] on. *)
Theorem reading_shape (n : nat) (frame : list byte) (w w' : World) (sensors : Sensors) :
  (n <= 7)%nat ->
  decode_frame n frame tt w = (tt, w', Ret sensors) ->
  forall i : nat,
    ((i < n)%nat ->
     exists (v : pyval) (u : string),
       getValue sensors i = Ret v /\
       getUnit sensors i = Ret u /\
       unit_table !! i = Some u /\
       if ((i =? RADON_SHORT_TERM_AVG) || (i =? RADON_LONG_TERM_AVG))%nat
       then v = VStr "N/A" \/ exists z : Z, v = VInt z /\ 0 <= z <= 16383
       else exists f : float, v = VFloat f) /\
    ((n <= i)%nat ->
     getValue sensors i = Raise IndexError /\ getUnit sensors i = Raise IndexError).
Proof.
  intros Hn H i.
  apply decode_frame_Ret in H; [| exact Hn]. destruct H as (-> & _ & _).
  unfold getValue, getUnit. cbn [sensor_data sensor_units].
  split.
  - intros Hi.
    do 8 (destruct n as [| n]; [
      do 7 (destruct i as [| i]; [
        first [lia |
               eexists _, _;
               split; [reflexivity |];
               split; [reflexivity |];
               split; [reflexivity |];
               cbn [Nat.eqb orb RADON_SHORT_TERM_AVG RADON_LONG_TERM_AVG];
               first [apply conv2radon_shape | eexists; reflexivity]] |]);
      lia |]).
    lia.
  - intros Hi.
    destruct (populated_derived n (VInt 1) frame [] Hn) as [_ HL].
    split; apply getitem_out_of_range.
    + rewrite HL. exact Hi.
    + rewrite length_take. unfold unit_table. simpl length. lia.
Qed.

Lemma reading_shape_witness :
  exists (v : pyval) (u : string),
    getValue (mkSensors (VInt 1) 4 (take 4 (derived frame_example)) (take 4 unit_table)) 1
      = Ret v /\
    getUnit (mkSensors (VInt 1) 4 (take 4 (derived frame_example)) (take 4 unit_table)) 1
      = Ret u /\
    unit_table !! 1%nat = Some u /\
    (v = VStr "N/A" \/ exists z : Z, v = VInt z /\ 0 <= z <= 16383).
Proof.
  apply (proj1 (reading_shape 4 frame_example w0 w0
                  (mkSensors (VInt 1) 4 (take 4 (derived frame_example)) (take 4 unit_table))
                  ltac:(lia) ltac:(vm_compute; reflexivity) 1%nat)).
  lia.
Defined.

(** X10: when the device has no characteristic of the wanted UUID
    ([getCharacteristics] returns the empty list), [connect] raises its
    "Failed to connect" exception and keeps the connection it has just
    opened; a later [connect] reuses that connection: it makes one transport
    call, for the characteristics. *)
Theorem connect_no_characteristic
    (tr : Transport) (self : WavePlus) (w w2 : World) (a : string) (p : Peripheral) :
  MacAddr self = Some a ->
  periph self = None ->
  curr_val_char self = None ->
  Peripheral_answer tr (clock w) a = Ret p ->
  getCharacteristics_answer tr (S (clock w)) p (uuid self) = Ret [] ->
  connect tr self w
    = (set_periph (Some p) self, tick (tick w), Raise (Exception connect_failed)) /\
  connect tr (set_periph (Some p) self) w2 =
    match getCharacteristics_answer tr (clock w2) p (uuid self) with
    | Ret (c :: _) =>
        (set_curr_val_char (Some c) (set_periph (Some p) self), tick w2, Ret tt)
    | Ret [] =>
        (set_periph (Some p) self, tick w2, Raise (Exception connect_failed))
    | Raise e =>
        (set_periph (Some p) self, tick w2,
         Raise (if is_Exception e then Exception connect_failed else e))
    end.
Proof.
  intros Ha Hp Hc HP HG. split.
  - rewrite (connect_cached tr self w a Ha).
    unfold connect_device. run_monad. rewrite Hp, Ha, HP. simpl.
    rewrite Hc. simpl. rewrite HG. reflexivity.
  - rewrite (connect_cached tr _ w2 a) by exact Ha.
    unfold connect_device. run_monad. simpl. rewrite Hc.
    destruct (getCharacteristics_answer tr (clock w2) p (uuid self)) as [[| c chars] | e];
      try reflexivity.
    simpl. destruct (is_Exception e); reflexivity.
Qed.

Lemma connect_no_characteristic_witness :
  connect tr_no_characteristic
    (set_MacAddr (Some "80:6f:b0:aa:bb:cc") (WavePlus_init 1234567890 true)) w0
  = (set_periph (Some (mkPeripheral "80:6f:b0:aa:bb:cc"))
       (set_MacAddr (Some "80:6f:b0:aa:bb:cc") (WavePlus_init 1234567890 true)),
     tick (tick w0), Raise (Exception connect_failed)).
Proof.
  apply (proj1 (connect_no_characteristic tr_no_characteristic
                  (set_MacAddr (Some "80:6f:b0:aa:bb:cc") (WavePlus_init 1234567890 true))
                  w0 w0 "80:6f:b0:aa:bb:cc" (mkPeripheral "80:6f:b0:aa:bb:cc")
                  eq_refl eq_refl eq_refl eq_refl eq_refl)).
Defined.

(** ** A round of the loop *)

Lemma comprehension_length {A B} (f : A -> Res B) (xs : list A) :
  forall ys : list B, comprehension f xs = Ret ys -> length ys = length xs.
Proof.
  induction xs as [| x xs IH]; intros ys H; simpl in H.
  - inversion H. reflexivity.
  - destruct (f x) as [y | e]; [| discriminate H]. simpl in H.
    destruct (comprehension f xs) as [ys' | e]; [| discriminate H].
    inversion H. simpl. rewrite (IH ys' eq_refl). reflexivity.
Qed.

Lemma connect_device_fresh (tr : Transport) (self self' : WavePlus) (w w' : World) :
  periph self = None ->
  curr_val_char self = None ->
  connect_device tr self w = (self', w', Ret tt) ->
  w' = tick (tick w) /\
  exists (p : Peripheral) (c : Characteristic),
    self' = set_curr_val_char (Some c) (set_periph (Some p) self).
Proof.
  intros Hp Hc. unfold connect_device. run_monad. rewrite Hp.
  destruct (MacAddr self) as [a |]; simpl; [| discriminate].
  destruct (Peripheral_answer tr (clock w) a) as [p | e]; simpl.
  - rewrite Hc. simpl.
    destruct (getCharacteristics_answer tr (S (clock w)) p (uuid self))
      as [[| c chars] | e]; simpl.
    + discriminate.
    + intros H. inversion H. split; [reflexivity | eauto].
    + destruct (is_Exception e); discriminate.
  - destruct (is_Exception e); discriminate.
Qed.

Lemma connect_returns_connected
    (tr : Transport) (self self' : WavePlus) (w w' : World) :
  connect tr self w = (self', w', Ret tt) ->
  exists (a : string) (p : Peripheral) (c : Characteristic),
    MacAddr self' = Some a /\ periph self' = Some p /\ curr_val_char self' = Some c.
Proof.
  unfold connect, bind.
  destruct (connect_discover tr self w) as [[s1 w1] [[] | e]] eqn:E; [| discriminate].
  apply connect_discover_Ret in E. destruct E as [a Ha].
  pose proof (connect_device_outcome tr s1 w1) as H.
  destruct (connect_device tr s1 w1) as [[s2 w2] r]. destruct H as (HM & _ & _ & Hr).
  intros H. inversion H; subst. destruct Hr as [[p Hp] [c Hc]].
  exists a, p, c. rewrite HM. auto.
Qed.

Lemma read_Ret (tr : Transport) (self self' : WavePlus) (w w' : World) (sensors : Sensors) :
  (numSensors self <= 7)%nat ->
  read tr self w = (self', w', Ret sensors) ->
  self' = self /\ w' = tick w /\
  exists rawdata : list byte,
    sensors = mkSensors (VInt 1) (numSensors self)
                (take (numSensors self) (derived rawdata))
                (take (numSensors self) unit_table).
Proof.
  intros Hn. unfold read. run_monad.
  destruct (curr_val_char self) as [c |]; [| discriminate].
  destruct (read_answer tr (clock w) c) as [rawdata | e]; [| discriminate].
  intros H.
  pose proof (decode_frame_Ret _ _ _ _ _ _ _ Hn H) as (_ & Hlen & H0).
  rewrite decode_frame_version_1 in H by assumption.
  inversion H. eauto.
Qed.

(** X11: a round of the loop that completes leaves the session disconnected
    (no connection, no characteristic) with its address cached.  A round
    that starts so and completes makes exactly four transport calls
    (connect, characteristics, read, disconnect) and prints exactly one
    row, with one cell per sensor. *)
Theorem loop_body_Ret
    (tr : Transport) (args : Args) (self self' : WavePlus) (w w' : World) :
  loop_body tr args self w = (self', w', Ret tt) ->
  (periph self' = None /\ curr_val_char self' = None /\ is_Some (MacAddr self') /\
   numSensors self' = numSensors self) /\
  (is_Some (MacAddr self) -> periph self = None -> curr_val_char self = None ->
   (numSensors self <= 7)%nat ->
   self' = self /\
   clock w' = (clock w + 4)%nat /\
   exists data : list (pyval * string),
     stdout w' = stdout w ++ [Row (not_plain args) data] /\
     length data = numSensors self).
Proof.
  unfold loop_body, bind. intros H.
  destruct (connect tr self w) as [[s1 w1] [[] | e1]] eqn:E1; [| discriminate H].
  pose proof (connect_invariant tr self w) as (_ & _ & Hn1 & _).
  rewrite E1 in Hn1. simpl in Hn1.
  pose proof (connect_returns_connected tr self s1 w w1 E1) as (a & p & c & Ha & Hp & Hc).
  pose proof (read_state tr s1 w1) as Hs2.
  destruct (read tr s1 w1) as [[s2 w2] [sensors | e2]] eqn:E2; [| discriminate H].
  simpl in Hs2. subst s2.
  unfold getNumSensors, get, bind, ret, lift, output in H.
  destruct (comprehension (formater sensors) (seq 0 (numSensors s1))) as [data | e3] eqn:E3;
    [| discriminate H].
  rewrite (disconnect_Some tr s1 _ p Hp) in H.
  destruct (disconnect_answer tr (clock (emit (Row (not_plain args) data) w2)) p)
    as [[] | e4]; [| discriminate H].
  unfold time_sleep, raise in H.
  destruct (period args <? 0)%float; [discriminate H |].
  inversion H; subst self' w'. clear H.
  split.
  - simpl. rewrite Ha. repeat split; eauto.
  - intros [a0 Ha0] Hp0 Hc0 Hn.
    rewrite (connect_cached tr self w a0 Ha0) in E1.
    pose proof (connect_device_fresh tr self s1 w w1 Hp0 Hc0 E1) as (-> & p1 & c1 & Hs1).
    pose proof (read_Ret tr s1 s1 _ w2 sensors ltac:(lia) E2) as (_ & -> & _).
    split; [| split].
    + rewrite Hs1. destruct self; simpl in *. subst. reflexivity.
    + simpl. lia.
    + exists data. split; [reflexivity |].
      rewrite (comprehension_length _ _ data E3), length_seq. exact Hn1.
Qed.

Lemma loop_body_Ret_witness :
  let self := set_MacAddr (Some "80:6f:b0:aa:bb:cc") (WavePlus_init 1234567890 true) in
  let r := loop_body tr_ok args_example self w0 in
  fst (fst r) = self /\ clock (snd (fst r)) = 4%nat.
Proof.
  pose proof (proj2 (loop_body_Ret tr_ok args_example
                  (set_MacAddr (Some "80:6f:b0:aa:bb:cc") (WavePlus_init 1234567890 true))
                  (fst (fst (loop_body tr_ok args_example
                     (set_MacAddr (Some "80:6f:b0:aa:bb:cc")
                        (WavePlus_init 1234567890 true)) w0)))
                  w0
                  (snd (fst (loop_body tr_ok args_example
                     (set_MacAddr (Some "80:6f:b0:aa:bb:cc")
                        (WavePlus_init 1234567890 true)) w0)))
                  ltac:(vm_compute; reflexivity))
                ltac:(vm_compute; eauto) eq_refl eq_refl ltac:(simpl; lia)) as (H1 & H2 & _).
  split; [exact H1 | exact H2].
Defined.

(** ** What the program prints *)

Lemma prints_text_same (w w' : World) : stdout w' = stdout w -> prints_text w w'.
Proof.
  intros H. exists []. rewrite H, app_nil_r. split; [reflexivity | constructor].
Qed.

Lemma prints_text_trans (w1 w2 w3 : World) :
  prints_text w1 w2 -> prints_text w2 w3 -> prints_text w1 w3.
Proof.
  intros (e1 & H1 & F1) (e2 & H2 & F2). exists (e1 ++ e2).
  rewrite H2, H1, <- app_assoc. split; [reflexivity | apply Forall_app; split; assumption].
Qed.

Lemma prints_text_emit (w : World) (o : Output) : is_text o -> prints_text w (emit o w).
Proof.
  intros H. exists [o]. split; [reflexivity | repeat constructor; exact H].
Qed.

Lemma prints_text_well_formed (args : Args) (w w' : World) :
  prints_text w w' ->
  Forall (well_formed args) (stdout w) -> Forall (well_formed args) (stdout w').
Proof.
  intros (extra & H & F) Hw. rewrite H. apply Forall_app. split; [exact Hw |].
  eapply Forall_impl; [exact F |].
  intros o Ho. destruct o; simpl in *; tauto.
Qed.

Lemma connect_discover_prints_text (tr : Transport) (self : WavePlus) (w : World) :
  prints_text w (snd (fst (connect_discover tr self w))).
Proof.
  unfold connect_discover. run_monad. destruct (MacAddr self) as [a |].
  - apply prints_text_same. reflexivity.
  - destruct (connect_while_frame tr 50 self w) as (a & w1 & r & E & Hout & _).
    rewrite E. destruct r as [[] | e]; [| apply prints_text_same; exact Hout].
    destruct a as [a |]; simpl; [apply prints_text_same; exact Hout |].
    exists not_found. unfold emit, not_found. cbn [stdout].
    rewrite Hout, <- !app_assoc. split; [reflexivity | repeat constructor].
Qed.

Lemma connect_prints_text (tr : Transport) (self : WavePlus) (w : World) :
  prints_text w (snd (fst (connect tr self w))).
Proof.
  unfold connect, bind.
  pose proof (connect_discover_prints_text tr self w) as H1.
  destruct (connect_discover tr self w) as [[s1 w1] [[] | e]]; [| exact H1].
  simpl in H1. apply (prints_text_trans w w1); [exact H1 |].
  pose proof (connect_device_outcome tr s1 w1) as H2.
  destruct (connect_device tr s1 w1) as [[s2 w2] r]. destruct H2 as (_ & Hout & _).
  apply prints_text_same. exact Hout.
Qed.

Lemma read_prints_text (tr : Transport) (self : WavePlus) (w : World) :
  (numSensors self <= 7)%nat -> prints_text w (snd (fst (read tr self w))).
Proof.
  intros Hn. unfold read. run_monad.
  destruct (curr_val_char self) as [c |].
  - destruct (read_answer tr (clock w) c) as [rawdata | e];
      [| apply prints_text_same; reflexivity].
    destruct (Nat.eq_dec (length rawdata) 20%nat) as [Hlen | Hlen];
      [| rewrite decode_frame_wrong_length by exact Hlen;
         apply prints_text_same; reflexivity].
    destruct (Z.eq_dec (byte_at rawdata 0) 1) as [E | E].
    + assert (H0 : rawdata !! 0%nat = Some x01).
      { destruct rawdata as [| b0 rest]; [discriminate Hlen |].
        unfold byte_at in E. simpl in E. apply byte_int_1 in E. subst b0. reflexivity. }
      rewrite decode_frame_version_1 by assumption.
      apply prints_text_same. reflexivity.
    + rewrite decode_frame_other_version by assumption. simpl.
      apply (prints_text_trans _ (emit (Line ("ERROR: Unknown sensor version." ++ nl)) (tick w))).
      * apply (prints_text_trans _ (tick w)); [apply prints_text_same; reflexivity |].
        apply prints_text_emit. exact I.
      * apply prints_text_emit. exact I.
  - simpl. apply prints_text_emit. exact I.
Qed.

Lemma disconnect_prints_text (tr : Transport) (self : WavePlus) (w : World) :
  prints_text w (snd (fst (disconnect tr self w))).
Proof.
  apply prints_text_same. destruct (periph self) as [p |] eqn:E.
  - rewrite (disconnect_Some tr self w p E).
    destruct (disconnect_answer tr (clock w) p); reflexivity.
  - rewrite (disconnect_None tr self w E). reflexivity.
Qed.

Lemma formatted_cells (n : nat) (v v0 v1 v2 v3 v4 v5 v6 : pyval) :
  (n <= 7)%nat ->
  comprehension
    (formater (mkSensors v n (take n [v0; v1; v2; v3; v4; v5; v6]) (take n unit_table)))
    (seq 0 n)
  = Ret (take n [(v0, "%rH"); (v1, "Bq/m3"); (v2, "Bq/m3"); (v3, "degC");
                 (v4, "hPa"); (v5, "ppm"); (v6, "ppb")]).
Proof.
  intros Hn.
  do 8 (destruct n as [| n]; [vm_compute; reflexivity |]).
  lia.
Qed.

Lemma loop_body_well_formed (tr : Transport) (args : Args) (self : WavePlus) (w : World) :
  reachable tr (serial args) (hasAirQuality args) self ->
  Forall (well_formed args) (stdout w) ->
  Forall (well_formed args) (stdout (snd (fst (loop_body tr args self w)))).
Proof.
  intros Hr Hw. unfold loop_body, bind.
  pose proof (connect_prints_text tr self w) as P1.
  pose proof (reach_connect tr _ _ self w Hr) as R1.
  destruct (connect tr self w) as [[s1 w1] [[] | e1]]; simpl in P1, R1;
    [| exact (prints_text_well_formed args w w1 P1 Hw)].
  pose proof (prints_text_well_formed args w w1 P1 Hw) as Hw1.
  pose proof (reachable_invariant tr _ _ s1 R1) as (_ & Hn & _).
  assert (Hn7 : (numSensors s1 <= 7)%nat) by (rewrite Hn; destruct (hasAirQuality args); lia).
  pose proof (read_prints_text tr s1 w1 Hn7) as P2.
  pose proof (prints_text_well_formed args w1 _ P2 Hw1) as Hw2.
  pose proof (read_state tr s1 w1) as Hs2.
  destruct (read tr s1 w1) as [[s2 w2] [sensors | e2]] eqn:E2; simpl in Hw2, Hs2;
    [| exact Hw2].
  subst s2.
  pose proof (read_Ret tr s1 s1 w1 w2 sensors Hn7 E2) as (_ & _ & rawdata & ->).
  clear E2.
  unfold getNumSensors, get, bind, ret, lift, output, derived.
  rewrite formatted_cells by exact Hn7.
  match goal with
  | |- context [emit (Row ?pretty ?data) w2] =>
      assert (Hw3 : Forall (well_formed args) (stdout (emit (Row pretty data) w2)))
  end.
  { unfold emit. cbn [stdout]. apply Forall_app. split; [exact Hw2 |].
    constructor; [| constructor].
    unfold well_formed. rewrite Hn.
    split; [reflexivity |].
    destruct (hasAirQuality args); (split; [reflexivity |]);
      repeat constructor; cbn [fst]; apply conv2radon_populated. }
  match goal with
  | |- context [disconnect tr s1 ?w3] =>
      pose proof (disconnect_prints_text tr s1 w3) as P4;
      pose proof (prints_text_well_formed args w3 _ P4 Hw3) as Hw4;
      destruct (disconnect tr s1 w3) as [[s4 w4] [[] | e4]]; simpl in Hw4; [| exact Hw4]
  end.
  unfold time_sleep. destruct (period args <? 0)%float; exact Hw4.
Qed.

Lemma while_True_well_formed (tr : Transport) (args : Args) (cycles : nat) :
  forall (self : WavePlus) (w : World),
    reachable tr (serial args) (hasAirQuality args) self ->
    Forall (well_formed args) (stdout w) ->
    Forall (well_formed args) (stdout (snd (fst (while_True tr args cycles self w)))).
Proof.
  induction cycles as [| n IH]; intros self w Hr Hw; [exact Hw |].
  simpl. unfold bind.
  pose proof (loop_body_well_formed tr args self w Hr Hw) as H1.
  pose proof (loop_body_reachable tr args _ _ self w Hr) as R1.
  destruct (loop_body tr args self w) as [[s1 w1] [[] | e]]; [| exact H1].
  apply IH; assumption.
Qed.

(** X12: whatever the transport does and however long the program runs,
    the header it prints has one label per sensor of the capability, and
    every row it prints has one cell per sensor, each with a value and with
    the unit of the table for its column, in the style [--plain] chose. *)
Theorem main_well_formed (tr : Transport) (args : Args) (cycles : nat) :
  Forall (well_formed args) (stdout (snd (fst (main tr args cycles)))).
Proof.
  rewrite main_started.
  assert (H0 : Forall (well_formed args) (stdout (started args))).
  { unfold started. cbn [stdout]. apply Forall_app. split.
    - destruct (not_plain args); repeat constructor.
    - repeat constructor. }
  pose proof (while_True_well_formed tr args cycles _ (started args)
                (reach_init tr (serial args) (hasAirQuality args)) H0) as H1.
  destruct (while_True tr args cycles _ (started args)) as [[s1 w1] [[] | e]];
    simpl in H1; [exact H1 |].
  unfold ended, except_finally. run_monad.
  destruct (is_Exception e); simpl.
  - pose proof (disconnect_prints_text tr s1 (emit (Line "") (emit (StrOf e) w1))) as P.
    assert (H2 : Forall (well_formed args) (stdout (emit (Line "") (emit (StrOf e) w1)))).
    { unfold emit. cbn [stdout]. repeat (apply Forall_app; split); try exact H1;
        repeat constructor. }
    pose proof (prints_text_well_formed args _ _ P H2) as H3.
    destruct (disconnect tr s1 (emit (Line "") (emit (StrOf e) w1)))
      as [[s2 w2] [[] | e2]]; exact H3.
  - pose proof (disconnect_prints_text tr s1 w1) as P.
    pose proof (prints_text_well_formed args _ _ P H1) as H3.
    destruct (disconnect tr s1 w1) as [[s2 w2] [[] | e2]]; exact H3.
Qed.

Lemma disconnect_Ret (tr : Transport) (self self' : WavePlus) (w w' : World) :
  disconnect tr self w = (self', w', Ret tt) -> periph self' = None.
Proof.
  intros H. destruct (periph self) as [p |] eqn:E.
  - rewrite (disconnect_Some tr self w p E) in H.
    destruct (disconnect_answer tr (clock w) p); inversion H; reflexivity.
  - rewrite (disconnect_None tr self w E) in H. inversion H; subst. exact E.
Qed.

(** X13: a program that has ended without an uncaught exception (exit
    status 0) holds no connection and no characteristic. *)
Theorem main_ended_released
    (tr : Transport) (args : Args) (cycles : nat) (self : WavePlus) (w : World) :
  main tr args cycles = (self, w, Terminated None) ->
  periph self = None /\ curr_val_char self = None.
Proof.
  intros H.
  pose proof (main_reachable tr args cycles) as Hr. rewrite H in Hr. simpl in Hr.
  apply reachable_invariant in Hr. destruct Hr as (_ & _ & Hh).
  assert (Hp : periph self = None); [| split; [exact Hp | exact (Hh Hp)]].
  rewrite main_started in H.
  destruct (while_True tr args cycles _ (started args)) as [[s1 w1] [[] | e]];
    [discriminate H |].
  destruct (is_Exception e) eqn:Ee.
  - rewrite except_finally_Exception in H by exact Ee.
    destruct (disconnect tr s1 _) as [[s2 w2] [[] | e2]] eqn:Ed; [| discriminate H].
    inversion H; subst. exact (disconnect_Ret tr _ _ _ _ Ed).
  - rewrite except_finally_other in H by exact Ee.
    destruct (disconnect tr s1 w1) as [[s2 w2] [[] | e2]]; discriminate H.
Qed.

Lemma main_ended_released_witness :
  periph (fst (fst (main tr_refuse_once args_example 3))) = None /\
  curr_val_char (fst (fst (main tr_refuse_once args_example 3))) = None.
Proof.
  apply (main_ended_released tr_refuse_once args_example 3
           (fst (fst (main tr_refuse_once args_example 3)))
           (snd (fst (main tr_refuse_once args_example 3)))).
  vm_compute. reflexivity.
Defined.

(** ** Edge cases *)



(** X15: in the search for a target serial number, an advertisement
    without manufacturer data, and one whose manufacturer data has at least
    two bytes and another manufacturer ID, are passed over without an
    exception; an advertisement with the manufacturer data of a Wave Plus
    answers the target when its serial number is the target and is passed
    over when it is not. *)
Theorem advertisement_cases (target : Z) (dev : ScanEntry) :
  (getValueText dev 255 = None -> passes target dev) /\
  (forall bs : list byte,
      getValueText dev 255 = Some (hexlify bs) ->
      (2 <= length bs)%nat ->
      le_uint (take 2 bs) <> 0x0334 ->
      passes target dev) /\
  (forall (serial : Z) (rest : list byte),
      getValueText dev 255 = Some (hexlify (manufacturer_data serial ++ rest)) ->
      0 <= serial < 2 ^ 32 ->
      if serial =? target then answers target dev else passes target dev).
Proof.
  unfold passes, answers. split; [| split].
  - intros ->. exists Unknown. split; reflexivity.
  - intros bs -> Hlen Hid. exists Unknown. split; [| reflexivity].
    rewrite (parseSerialNumber_bytes _ _ (fromhex_hexlify bs)).
    destruct bs as [| b0 [| b1 rest]]; simpl in Hlen; try lia.
    simpl in Hid.
    destruct (Z.eqb_spec (byte_int b0 + 256 * byte_int b1) 820); [lia | reflexivity].
  - intros serial rest -> Hs.
    assert (E : parseSerialNumber (Some (hexlify (manufacturer_data serial ++ rest)))
                = Ret (VInt serial)).
    { rewrite (parseSerialNumber_bytes _ _ (fromhex_hexlify _)).
      destruct (manufacturer_data_bytes serial Hs) as (b2 & b3 & b4 & b5 & -> & E).
      cbn [app]. change (byte_int x34 + 256 * byte_int x03 =? 820) with true.
      cbv iota. rewrite E. reflexivity. }
    rewrite E.
    destruct (Z.eqb_spec serial target) as [-> | Hne]; [reflexivity |].
    exists (VInt serial). split; [reflexivity |].
    simpl. apply Z.eqb_neq. exact Hne.
Qed.

Lemma advertisement_cases_witness :
  passes 1234567890 bare_adv /\ passes 1234567890 other_adv /\
  answers 1234567890 waveplus_adv.
Proof.
  split; [| split].
  - apply (proj1 (advertisement_cases 1234567890 bare_adv)). reflexivity.
  - apply (proj1 (proj2 (advertisement_cases 1234567890 other_adv))
             [x4c; x00; x02; x15; x00; x00]).
    + reflexivity.
    + simpl. lia.
    + vm_compute. discriminate.
  - apply (proj2 (proj2 (advertisement_cases 1234567890 waveplus_adv)) 1234567890 []).
    + reflexivity.
    + lia.
Defined.
